(** * RDE Control Center: session multiplexer and log streams

    A shallow embedding of the two back ends of the application:
    - [Main]: the Electron main process (main.js): persistent [rde ssh]
      session, command queue, completion triggers, connect handshake;
    - [Server]: the Express/WebSocket server (server.js), the same state
      machine with an inactivity poll and other timer values;
    - [LogTail]: the stdout handler of a [logs/tail] stream of main.js.

    JavaScript strings are sequences of UTF-16 code units, modelled as
    [list N].  Console logging and the diagnostic messages sent under the
    id ['rde-debug'] are not part of the model. *)

From Stdlib Require Import List ZArith NArith Bool String Ascii Lia.
Import ListNotations.

Set Implicit Arguments.

(** ** JavaScript strings *)

Module JS.

Definition jsstring := list N.

(** A literal of the source, character by character. *)
Definition lit (s : string) : jsstring :=
  map N_of_ascii (list_ascii_of_string s).

Definition NL : N := 10.

(** WhiteSpace and LineTerminator code points: what [String.prototype.trim]
    strips and what [\s] matches. *)
Definition is_ws (c : N) : bool :=
  ((c =? 9) || (c =? 10) || (c =? 11) || (c =? 12) || (c =? 13) || (c =? 32)
   || (c =? 160) || (c =? 5760) || ((8192 <=? c) && (c <=? 8202))
   || (c =? 8232) || (c =? 8233) || (c =? 8239) || (c =? 8287)
   || (c =? 12288) || (c =? 65279))%N.

(** LineTerminator code points: what [.] does not match. *)
Definition is_line_terminator (c : N) : bool :=
  ((c =? 10) || (c =? 13) || (c =? 8232) || (c =? 8233))%N.

Fixpoint trimStart (s : jsstring) : jsstring :=
  match s with
  | [] => []
  | c :: r => if is_ws c then trimStart r else s
  end.

Definition trimEnd (s : jsstring) : jsstring := rev (trimStart (rev s)).

(** [s.trim()] *)
Definition trim (s : jsstring) : jsstring := trimEnd (trimStart s).

(** Truthiness of a string: non-empty. *)
Definition truthy (s : jsstring) : bool :=
  match s with [] => false | _ => true end.

(** [s.split('\n')]: always at least one piece. *)
Fixpoint split_nl (s : jsstring) : list jsstring :=
  match s with
  | [] => [[]]
  | c :: r =>
      if (c =? NL)%N then [] :: split_nl r
      else match split_nl r with
           | l :: ls => (c :: l) :: ls
           | [] => [[c]]
           end
  end.

(** [a.join('\n')] *)
Fixpoint join_nl (a : list jsstring) : jsstring :=
  match a with
  | [] => []
  | [l] => l
  | l :: r => l ++ NL :: join_nl r
  end.

Fixpoint eqb (a b : jsstring) : bool :=
  match a, b with
  | [], [] => true
  | x :: a', y :: b' => (x =? y)%N && eqb a' b'
  | _, _ => false
  end.

Fixpoint startsWith (p s : jsstring) : bool :=
  match p, s with
  | [], _ => true
  | x :: p', y :: s' => (x =? y)%N && startsWith p' s'
  | _ :: _, [] => false
  end.

(** [s.includes(p)] *)
Fixpoint includes (p s : jsstring) : bool :=
  startsWith p s ||
  match s with
  | [] => false
  | _ :: r => includes p r
  end.

(** [toLowerCase] on the Latin capital letters.  The source uses it only in
    [welcomeBuffer.toLowerCase().includes('welcome')]; no other character
    maps to one of the letters of that word. *)
Definition lower (c : N) : N :=
  if ((65 <=? c) && (c <=? 90))%N then (c + 32)%N else c.

Definition toLowerCase (s : jsstring) : jsstring := map lower s.

(** [s.slice(-n)] *)
Definition slice_last (n : nat) (s : jsstring) : jsstring :=
  skipn (List.length s - n) s.

(** [/[#$]\s*$/] tried at every start position, leftmost first. *)
Fixpoint matches_prompt (line : jsstring) : bool :=
  match line with
  | [] => false
  | c :: r =>
      (((c =? 35) || (c =? 36))%N && forallb is_ws r) || matches_prompt r
  end.

(** The remainder [\s+<==$] of the header expression: the greedy [\s+] has
    to stop at the first character that is not white space. *)
Definition match_tail (s : jsstring) : bool :=
  match s with
  | c :: _ => is_ws c && eqb (trimStart s) (lit "<==")
  | [] => false
  end.

(** The lazy group [(.+?)]: the shortest non-empty run of characters other
    than line terminators after which [match_tail] succeeds. *)
Fixpoint lazy_capture (acc s : jsstring) : option jsstring :=
  match s with
  | [] => None
  | c :: r =>
      if is_line_terminator c then None
      else if match_tail r then Some (acc ++ [c])
           else lazy_capture (acc ++ [c]) r
  end.

(** The first [\s+], greedy: the longest run first, then backtracking down
    to one character. *)
Fixpoint try_ws (k : nat) (r : jsstring) : option jsstring :=
  match k with
  | O => None
  | S k' =>
      match lazy_capture [] (skipn k r) with
      | Some c => Some c
      | None => try_ws k' r
      end
  end.

Definition ws_run (s : jsstring) : nat :=
  List.length s - List.length (trimStart s).

(** [t.match(/^==>\s+(.+?)\s+<==$/)], giving group 1. *)
Definition fileHeaderMatch (t : jsstring) : option jsstring :=
  match t with
  | 61%N :: 61%N :: 62%N :: r => try_ws (ws_run r) r
  | _ => None
  end.

End JS.
Import JS.

(** ** State of the session multiplexer (shared by main.js and server.js) *)

Module Session.

(** A command id, [`cmd-${Date.now()}-${++commandCounter}`]. *)
Record cmdid := { id_time : Z; id_counter : nat }.

Definition cmdid_eqb (a b : cmdid) : bool :=
  (id_time a =? id_time b)%Z && (id_counter a =? id_counter b)%nat.

Inductive source := Stdout | Stderr.

(** The errors promises are rejected with. *)
Inductive error :=
| SessionClosed                   (* new Error('RDE session closed') *)
| NotEstablished                  (* 'RDE session not established' *)
| ConnectionTimeout               (* the timeout error of main.js *)
| ConnectionTimeoutBuffer         (* the timeout error of server.js *)
| ProcessError (message : jsstring). (* the argument of the 'error' event *)

(** [error.message].  server.js appends [welcomeBuffer.slice(-200)] to its
    timeout message after it has emptied [welcomeBuffer]. *)
Definition error_message (e : error) : jsstring :=
  match e with
  | SessionClosed => lit "RDE session closed"
  | NotEstablished => lit "RDE session not established"
  | ConnectionTimeout => lit "Connection timeout: Welcome message not received"
  | ConnectionTimeoutBuffer =>
      lit "Connection timeout: Welcome message not received. Buffer: "
  | ProcessError m => m
  end.

(** What a command's promise resolves with. *)
Record result := { exitCode : Z; output : jsstring }.

Inductive conn_state := connected | disconnected | failed.

(** Everything the handlers do to the outside, in order. *)
Inductive out :=
| CommandOutput (id : cmdid) (src : source) (text : jsstring)
    (* event 'command/output' { id, source, text } *)
| RdeStatus (st : conn_state) (message : jsstring)
    (* event 'rde/status' { state, message } *)
| Resolve (p : nat) (r : result)       (* resolve of promise p called *)
| Reject (p : nat) (e : error)         (* reject of promise p called *)
| ConnectReply (success : bool) (text : jsstring)
| ExecuteReply (success : bool) (text : jsstring)
| DisconnectReply
| Spawn (pid : nat)                    (* spawn(rdePath, ['ssh']) *)
| StdinWrite (pid : nat) (text : jsstring)
| StdinEnd (pid : nat)
| Kill (pid : nat)
| Uncaught.                            (* a TypeError left the handler *)

(** The closures handed to [setTimeout].  A closure is given by the values
    it captured; [ref] is the identity of the captured tracker object. *)
Inductive timer :=
| HardTimeout (ref : nat) (commandId : cmdid) (p : nat)
| EarlyMain (cmdId : cmdid)
| EarlyServer (id : cmdid) (p : nat) (timeout : option nat)
| OutputActivity (ref : nat) (commandId : cmdid) (p : nat)
| ConnectTimeout (k : nat).

Record pending := { tm_id : nat; tm_due : Z; tm_cb : timer }.

(** [commandTracker].  main.js has no [outputTimeout] and [lastOutputTime]
    fields; there they stay at their initial values. *)
Record tracker := {
  t_ref : nat;                     (* object identity, for [===] *)
  t_id : cmdid;
  t_command : jsstring;
  t_resolve : nat;                 (* the promise's resolve/reject pair *)
  t_timeout : option nat;
  t_outputTimeout : option nat;
  t_lastOutputTime : Z;
  t_earlyCompleteScheduled : bool
}.

(** An entry of [commandOutputs]. *)
Record outbuf := { o_stdout : list jsstring; o_stderr : list jsstring }.

(** An entry of [commandQueue]. *)
Record qentry := { q_command : jsstring; q_commandId : cmdid; q_resolve : nat }.

(** The child process object with its [_currentCommand] property. *)
Record process := { p_pid : nat; p_currentCommand : option tracker }.

Record state := {
  currentTarget : option jsstring;       (* null, or '' once connected *)
  rdeProcess : option process;
  commandQueue : list qentry;
  isExecutingCommand : bool;
  commandOutputs : list (cmdid * outbuf); (* a Map, in insertion order *)
  commandCounter : nat;
  connectionResolve : option nat;
  welcomeBuffer : jsstring;
  (* the runtime *)
  timers : list pending;
  nextId : nat;                          (* next timer id / object identity *)
  microtasks : list (nat * option error) (* settled connect waits *)
}.

Definition init : state :=
  {| currentTarget := None; rdeProcess := None; commandQueue := [];
     isExecutingCommand := false; commandOutputs := []; commandCounter := 0;
     connectionResolve := None; welcomeBuffer := [];
     timers := []; nextId := 0; microtasks := [] |}.

Definition set_currentTarget v s :=
  {| currentTarget := v; rdeProcess := rdeProcess s;
     commandQueue := commandQueue s;
     isExecutingCommand := isExecutingCommand s;
     commandOutputs := commandOutputs s; commandCounter := commandCounter s;
     connectionResolve := connectionResolve s;
     welcomeBuffer := welcomeBuffer s; timers := timers s;
     nextId := nextId s; microtasks := microtasks s |}.

Definition set_rdeProcess v s :=
  {| currentTarget := currentTarget s; rdeProcess := v;
     commandQueue := commandQueue s;
     isExecutingCommand := isExecutingCommand s;
     commandOutputs := commandOutputs s; commandCounter := commandCounter s;
     connectionResolve := connectionResolve s;
     welcomeBuffer := welcomeBuffer s; timers := timers s;
     nextId := nextId s; microtasks := microtasks s |}.

Definition set_commandQueue v s :=
  {| currentTarget := currentTarget s; rdeProcess := rdeProcess s;
     commandQueue := v;
     isExecutingCommand := isExecutingCommand s;
     commandOutputs := commandOutputs s; commandCounter := commandCounter s;
     connectionResolve := connectionResolve s;
     welcomeBuffer := welcomeBuffer s; timers := timers s;
     nextId := nextId s; microtasks := microtasks s |}.

Definition set_isExecutingCommand v s :=
  {| currentTarget := currentTarget s; rdeProcess := rdeProcess s;
     commandQueue := commandQueue s;
     isExecutingCommand := v;
     commandOutputs := commandOutputs s; commandCounter := commandCounter s;
     connectionResolve := connectionResolve s;
     welcomeBuffer := welcomeBuffer s; timers := timers s;
     nextId := nextId s; microtasks := microtasks s |}.

Definition set_commandOutputs v s :=
  {| currentTarget := currentTarget s; rdeProcess := rdeProcess s;
     commandQueue := commandQueue s;
     isExecutingCommand := isExecutingCommand s;
     commandOutputs := v; commandCounter := commandCounter s;
     connectionResolve := connectionResolve s;
     welcomeBuffer := welcomeBuffer s; timers := timers s;
     nextId := nextId s; microtasks := microtasks s |}.

Definition set_commandCounter v s :=
  {| currentTarget := currentTarget s; rdeProcess := rdeProcess s;
     commandQueue := commandQueue s;
     isExecutingCommand := isExecutingCommand s;
     commandOutputs := commandOutputs s; commandCounter := v;
     connectionResolve := connectionResolve s;
     welcomeBuffer := welcomeBuffer s; timers := timers s;
     nextId := nextId s; microtasks := microtasks s |}.

Definition set_connectionResolve v s :=
  {| currentTarget := currentTarget s; rdeProcess := rdeProcess s;
     commandQueue := commandQueue s;
     isExecutingCommand := isExecutingCommand s;
     commandOutputs := commandOutputs s; commandCounter := commandCounter s;
     connectionResolve := v;
     welcomeBuffer := welcomeBuffer s; timers := timers s;
     nextId := nextId s; microtasks := microtasks s |}.

Definition set_welcomeBuffer v s :=
  {| currentTarget := currentTarget s; rdeProcess := rdeProcess s;
     commandQueue := commandQueue s;
     isExecutingCommand := isExecutingCommand s;
     commandOutputs := commandOutputs s; commandCounter := commandCounter s;
     connectionResolve := connectionResolve s;
     welcomeBuffer := v; timers := timers s;
     nextId := nextId s; microtasks := microtasks s |}.

Definition set_timers v s :=
  {| currentTarget := currentTarget s; rdeProcess := rdeProcess s;
     commandQueue := commandQueue s;
     isExecutingCommand := isExecutingCommand s;
     commandOutputs := commandOutputs s; commandCounter := commandCounter s;
     connectionResolve := connectionResolve s;
     welcomeBuffer := welcomeBuffer s; timers := v;
     nextId := nextId s; microtasks := microtasks s |}.

Definition set_nextId v s :=
  {| currentTarget := currentTarget s; rdeProcess := rdeProcess s;
     commandQueue := commandQueue s;
     isExecutingCommand := isExecutingCommand s;
     commandOutputs := commandOutputs s; commandCounter := commandCounter s;
     connectionResolve := connectionResolve s;
     welcomeBuffer := welcomeBuffer s; timers := timers s;
     nextId := v; microtasks := microtasks s |}.

Definition set_microtasks v s :=
  {| currentTarget := currentTarget s; rdeProcess := rdeProcess s;
     commandQueue := commandQueue s;
     isExecutingCommand := isExecutingCommand s;
     commandOutputs := commandOutputs s; commandCounter := commandCounter s;
     connectionResolve := connectionResolve s;
     welcomeBuffer := welcomeBuffer s; timers := timers s;
     nextId := nextId s; microtasks := v |}.

(** *** The Map [commandOutputs] *)

Fixpoint map_get (id : cmdid) (m : list (cmdid * outbuf)) : option outbuf :=
  match m with
  | [] => None
  | (k, v) :: r => if cmdid_eqb k id then Some v else map_get id r
  end.

(** [m.set(id, v)]: an existing key keeps its place. *)
Fixpoint map_set (id : cmdid) (v : outbuf) (m : list (cmdid * outbuf)) :=
  match m with
  | [] => [(id, v)]
  | (k, w) :: r =>
      if cmdid_eqb k id then (k, v) :: r else (k, w) :: map_set id v r
  end.

Fixpoint map_delete (id : cmdid) (m : list (cmdid * outbuf)) :=
  match m with
  | [] => []
  | (k, w) :: r =>
      if cmdid_eqb k id then r else (k, w) :: map_delete id r
  end.

(** *** Handlers: state, outputs, and exceptions *)

Inductive outcome (A : Type) := Ok (a : A) | Throw.
Arguments Throw {A}.

Definition M (A : Type) := state -> outcome A * state * list out.

Definition ret {A} (a : A) : M A := fun s => (Ok a, s, []).

Definition bind {A B} (m : M A) (k : A -> M B) : M B :=
  fun s =>
    match m s with
    | (Ok a, s1, o1) =>
        match k a s1 with
        | (r, s2, o2) => (r, s2, o1 ++ o2)
        end
    | (Throw, s1, o1) => (Throw, s1, o1)
    end.

Definition get : M state := fun s => (Ok s, s, []).
Definition modify (f : state -> state) : M unit := fun s => (Ok tt, f s, []).
Definition emit (o : out) : M unit := fun s => (Ok tt, s, [o]).
Definition throw {A} : M A := fun s => (Throw, s, []).

Declare Scope js_scope.
Delimit Scope js_scope with js.
Notation "x <- m ;; k" := (bind m (fun x => k))
  (at level 61, m at next level, right associativity) : js_scope.
Notation "m ;; k" := (bind m (fun _ => k))
  (at level 61, right associativity) : js_scope.
Open Scope js_scope.

(** [a.forEach(f)] *)
Fixpoint forEach {A} (l : list A) (f : A -> M unit) : M unit :=
  match l with
  | [] => ret tt
  | x :: r => f x ;; forEach r f
  end.

Definition when (b : bool) (m : M unit) : M unit := if b then m else ret tt.

(** Reading [rdeProcess._currentCommand]; a TypeError when [rdeProcess] is
    null. *)
Definition currentCommand : M (option tracker) :=
  s <- get ;;
  match rdeProcess s with
  | Some p => ret (p_currentCommand p)
  | None => throw
  end.

(** Writing [rdeProcess._currentCommand]. *)
Definition setCurrentCommand (t : option tracker) : M unit :=
  s <- get ;;
  match rdeProcess s with
  | Some p =>
      modify (set_rdeProcess
                (Some {| p_pid := p_pid p; p_currentCommand := t |}))
  | None => throw
  end.

(** A new timer id or object identity. *)
Definition fresh : M nat :=
  s <- get ;;
  modify (set_nextId (S (nextId s))) ;;
  ret (nextId s).

(** [setTimeout(cb, delay)] called at time [now]. *)
Definition setTimeout (now : Z) (cb : timer) (delay : Z) : M nat :=
  i <- fresh ;;
  modify (fun s =>
    set_timers (timers s ++ [{| tm_id := i; tm_due := now + delay;
                                tm_cb := cb |}]) s) ;;
  ret i.

Definition remove_timer (i : nat) (l : list pending) : list pending :=
  filter (fun t => negb (tm_id t =? i)%nat) l.

(** [if (x) clearTimeout(x)] *)
Definition clearTimeout (x : option nat) : M unit :=
  match x with
  | Some i => modify (fun s => set_timers (remove_timer i (timers s)) s)
  | None => ret tt
  end.

(** [output ? output.stdout.join('\n') : ''] for
    [output = commandOutputs.get(id)]. *)
Definition captured (s : state) (id : cmdid) : list jsstring :=
  match map_get id (commandOutputs s) with
  | Some o => o_stdout o
  | None => []
  end.

Definition fullOutput (id : cmdid) : M jsstring :=
  s <- get ;; ret (join_nl (captured s id)).

Definition deleteOutput (id : cmdid) : M unit :=
  modify (fun s => set_commandOutputs (map_delete id (commandOutputs s)) s).

(** [commandOutputs.get(id).stdout.push(line)] for an existing entry. *)
Definition pushStdout (id : cmdid) (line : jsstring) : M unit :=
  modify (fun s =>
    match map_get id (commandOutputs s) with
    | Some o =>
        set_commandOutputs
          (map_set id {| o_stdout := o_stdout o ++ [line];
                         o_stderr := o_stderr o |} (commandOutputs s)) s
    | None => s
    end).

Definition pushStderr (id : cmdid) (line : jsstring) : M unit :=
  modify (fun s =>
    match map_get id (commandOutputs s) with
    | Some o =>
        set_commandOutputs
          (map_set id {| o_stdout := o_stdout o;
                         o_stderr := o_stderr o ++ [line] |}
                   (commandOutputs s)) s
    | None => s
    end).

(** Calling the resolve or reject function of the connect wait [k]: the
    code after [await welcomePromise] runs once the handler has returned. *)
Definition settleConnect (k : nat) (e : option error) : M unit :=
  modify (fun s => set_microtasks (microtasks s ++ [(k, e)]) s).

(** The first lines of the stdout handler: the handshake buffer. *)
Definition welcome (text : jsstring) : M unit :=
  modify (fun s => set_welcomeBuffer (welcomeBuffer s ++ text) s) ;;
  s <- get ;;
  when (10000 <? Z.of_nat (List.length (welcomeBuffer s)))%Z
    (modify (set_welcomeBuffer (slice_last 5000 (welcomeBuffer s)))) ;;
  s <- get ;;
  match connectionResolve s with
  | Some k =>
      when (includes (lit "welcome") (toLowerCase (welcomeBuffer s)))
        (modify (set_connectionResolve None) ;;
         modify (set_welcomeBuffer []) ;;
         settleConnect k None)
  | None => ret tt
  end.

(** [closeRDESession], the same in both files. *)
Definition closeRDESession : M unit :=
  s <- get ;;
  match rdeProcess s with
  | Some p =>
      emit (StdinEnd (p_pid p)) ;;
      emit (Kill (p_pid p)) ;;
      modify (set_rdeProcess None)
  | None => ret tt
  end ;;
  modify (set_commandQueue []) ;;
  modify (set_isExecutingCommand false) ;;
  modify (set_currentTarget None) ;;
  modify (set_welcomeBuffer []) ;;
  modify (set_connectionResolve None).

(** [generateCommandId] *)
Definition generateCommandId (now : Z) : M cmdid :=
  s <- get ;;
  modify (set_commandCounter (S (commandCounter s))) ;;
  ret {| id_time := now; id_counter := S (commandCounter s) |}.

(** What can happen to the session, each at a clock reading [now]. *)
Inductive event :=
| Connect                       (* the connect request *)
| Disconnect                    (* the disconnect request *)
| Execute (command : jsstring)  (* the command/execute request *)
| StdoutData (text : jsstring)  (* 'data' on the session's stdout *)
| StderrData (text : jsstring)  (* 'data' on the session's stderr *)
| Exit                          (* 'exit' of the session process *)
| ProcError (message : jsstring) (* 'error' of the session process *)
| Timer (i : nat).              (* the timer with id i runs *)

Definition find_timer (i : nat) (l : list pending) : option pending :=
  find (fun t => (tm_id t =? i)%nat) l.

End Session.
Import Session.

(** ** main.js: the Electron main process *)

Module Main.

(** [processNextCommand] *)
Definition processNextCommand (now : Z) : M unit :=
  s <- get ;;
  match commandQueue s with
  | [] => ret tt
  | q :: rest =>
      if isExecutingCommand s then ret tt
      else
        modify (set_commandQueue rest) ;;
        modify (set_isExecutingCommand true) ;;
        modify (fun s =>
          set_commandOutputs
            (map_set (q_commandId q) {| o_stdout := []; o_stderr := [] |}
                     (commandOutputs s)) s) ;;
        ref <- fresh ;;
        tm <- setTimeout now
                (HardTimeout ref (q_commandId q) (q_resolve q)) 30000 ;;
        setCurrentCommand
          (Some {| t_ref := ref; t_id := q_commandId q;
                   t_command := q_command q; t_resolve := q_resolve q;
                   t_timeout := Some tm; t_outputTimeout := None;
                   t_lastOutputTime := 0;
                   t_earlyCompleteScheduled := false |}) ;;
        s <- get ;;
        match rdeProcess s with
        | Some p => emit (StdinWrite (p_pid p) (q_command q ++ [NL]))
        | None => throw
        end
  end.

(** The callback of the 300 ms timer set by the stdout handler. *)
Definition earlyComplete (now : Z) (cmdId : cmdid) : M unit :=
  cur <- currentCommand ;;
  match cur with
  | Some tracker =>
      when (cmdid_eqb (t_id tracker) cmdId)
        (full <- fullOutput cmdId ;;
         deleteOutput cmdId ;;
         setCurrentCommand None ;;
         modify (set_isExecutingCommand false) ;;
         emit (Resolve (t_resolve tracker)
                       {| exitCode := 0; output := full |}) ;;
         processNextCommand now)
  | None => ret tt
  end.

(** The callback of the 30 s fallback timer of [processNextCommand]. *)
Definition hardTimeout (now : Z) (ref : nat) (commandId : cmdid) (p : nat)
  : M unit :=
  cur <- currentCommand ;;
  match cur with
  | Some t =>
      when (t_ref t =? ref)%nat
        (full <- fullOutput commandId ;;
         deleteOutput commandId ;;
         modify (set_isExecutingCommand false) ;;
         setCurrentCommand None ;;
         emit (Resolve p {| exitCode := 0; output := full |}) ;;
         processNextCommand now)
  | None => ret tt
  end.

(** The callback of [commandOutputs.forEach] in the stdout handler, for the
    entry under [cmdId]. *)
Definition captureLine (now : Z) (line : jsstring) (isPrompt : bool)
    (cmdId : cmdid) : M unit :=
  when (truthy (trim line) && negb isPrompt)
    (pushStdout cmdId (trim line) ;;
     emit (CommandOutput cmdId Stdout (trim line)) ;;
     cur <- currentCommand ;;
     match cur with
     | Some t =>
         when (cmdid_eqb (t_id t) cmdId && truthy (t_command t)
               && includes (lit "supervisorctl status") (t_command t))
           (when (negb (t_earlyCompleteScheduled t))
              (setCurrentCommand
                 (Some {| t_ref := t_ref t; t_id := t_id t;
                          t_command := t_command t;
                          t_resolve := t_resolve t;
                          t_timeout := t_timeout t;
                          t_outputTimeout := t_outputTimeout t;
                          t_lastOutputTime := t_lastOutputTime t;
                          t_earlyCompleteScheduled := true |}) ;;
               _ <- setTimeout now (EarlyMain cmdId) 300 ;;
               ret tt))
     | None => ret tt
     end).

(** The body of [lines.forEach] in the stdout handler. *)
Definition stdoutLine (now : Z) (line : jsstring) : M unit :=
  let isPrompt := matches_prompt line in
  s <- get ;;
  forEach (map fst (commandOutputs s)) (captureLine now line isPrompt) ;;
  when isPrompt
    (cur <- currentCommand ;;
     match cur with
     | Some tracker =>
         clearTimeout (t_timeout tracker) ;;
         full <- fullOutput (t_id tracker) ;;
         deleteOutput (t_id tracker) ;;
         setCurrentCommand None ;;
         modify (set_isExecutingCommand false) ;;
         emit (Resolve (t_resolve tracker)
                       {| exitCode := 0; output := full |}) ;;
         processNextCommand now
     | None => ret tt
     end).

(** [rdeProcess.stdout.on('data', ...)] *)
Definition onStdout (now : Z) (text : jsstring) : M unit :=
  welcome text ;;
  forEach (split_nl text) (stdoutLine now).

(** [rdeProcess.stderr.on('data', ...)] *)
Definition onStderr (errorText : jsstring) : M unit :=
  let trimmedError := trim errorText in
  s <- get ;;
  forEach (map fst (commandOutputs s)) (fun cmdId =>
    when (truthy trimmedError)
      (pushStderr cmdId trimmedError ;;
       emit (CommandOutput cmdId Stderr trimmedError))).

(** [rdeProcess.on('exit', ...)] *)
Definition onExit : M unit :=
  modify (set_rdeProcess None) ;;
  modify (set_currentTarget None) ;;
  s <- get ;;
  forEach (commandQueue s) (fun q => emit (Reject (q_resolve q) SessionClosed)) ;;
  modify (set_commandQueue []) ;;
  modify (set_commandOutputs []) ;;
  modify (set_isExecutingCommand false) ;;
  emit (RdeStatus disconnected (lit "RDE session closed")).

(** [rdeProcess.on('error', ...)] *)
Definition onError (message : jsstring) : M unit :=
  modify (set_rdeProcess None) ;;
  modify (set_currentTarget None) ;;
  s <- get ;;
  forEach (commandQueue s)
    (fun q => emit (Reject (q_resolve q) (ProcessError message))) ;;
  modify (set_commandQueue []) ;;
  modify (set_commandOutputs []) ;;
  modify (set_isExecutingCommand false) ;;
  emit (RdeStatus failed message).

(** [createRDESession] *)
Definition createRDESession : M unit :=
  s <- get ;;
  match rdeProcess s with
  | Some _ => ret tt
  | None =>
      pid <- fresh ;;
      emit (Spawn pid) ;;
      modify (set_rdeProcess
                (Some {| p_pid := pid; p_currentCommand := None |})) ;;
      modify (set_commandOutputs []) ;;
      modify (set_welcomeBuffer [])
  end.

(** The handler of 'rde/connect' up to [await welcomePromise]. *)
Definition connect (now : Z) : M unit :=
  createRDESession ;;
  k <- fresh ;;
  modify (set_connectionResolve (Some k)) ;;
  modify (set_welcomeBuffer []) ;;
  _ <- setTimeout now (ConnectTimeout k) 15000 ;;
  ret tt.

(** The 15 s timer of the connect handler. *)
Definition connectTimeout (k : nat) : M unit :=
  s <- get ;;
  match connectionResolve s with
  | Some k' =>
      when (k' =? k)%nat
        (modify (set_connectionResolve None) ;;
         modify (set_welcomeBuffer []) ;;
         settleConnect k (Some ConnectionTimeout))
  | None => ret tt
  end.

(** The handler of 'rde/connect' after [await welcomePromise]. *)
Definition connectContinue (settled : nat * option error) : M unit :=
  match snd settled with
  | None =>
      modify (set_currentTarget (Some [])) ;;
      emit (RdeStatus connected (lit "Connected to RDE")) ;;
      emit (ConnectReply true [])
  | Some e =>
      modify (set_connectionResolve None) ;;
      closeRDESession ;;
      modify (set_connectionResolve None) ;;
      emit (RdeStatus failed (error_message e)) ;;
      emit (ConnectReply false (error_message e))
  end.

(** The handler of 'rde/disconnect' (its loop over the log streams, which
    have their own processes, left aside). *)
Definition disconnect : M unit :=
  closeRDESession ;;
  emit (RdeStatus disconnected (lit "Disconnected")) ;;
  emit DisconnectReply.

(** [executeInRDESession]; the promise is numbered when created. *)
Definition executeInRDESession (now : Z) (command : jsstring)
    (commandId : cmdid) : M unit :=
  p <- fresh ;;
  s <- get ;;
  match rdeProcess s with
  | None => emit (Reject p NotEstablished)
  | Some _ =>
      modify (fun s =>
        set_commandQueue
          (commandQueue s ++ [{| q_command := command;
                                 q_commandId := commandId;
                                 q_resolve := p |}]) s) ;;
      s <- get ;;
      when (negb (isExecutingCommand s)) (processNextCommand now)
  end.

(** The handler of 'command/execute' up to [await promise]. *)
Definition execute (now : Z) (command : jsstring) : M unit :=
  s <- get ;;
  match currentTarget s with
  | None =>
      emit (ExecuteReply false (lit "Not connected. Please connect first."))
  | Some _ =>
      commandId <- generateCommandId now ;;
      executeInRDESession now command commandId
  end.

Definition runTimer (now : Z) (cb : timer) : M unit :=
  match cb with
  | HardTimeout ref commandId p => hardTimeout now ref commandId p
  | EarlyMain cmdId => earlyComplete now cmdId
  | ConnectTimeout k => connectTimeout k
  | EarlyServer _ _ _ => ret tt      (* not created by main.js *)
  | OutputActivity _ _ _ => ret tt   (* not created by main.js *)
  end.

(** A timer runs once, and not before it is due. *)
Definition onTimer (now : Z) (i : nat) : M unit :=
  s <- get ;;
  match find_timer i (timers s) with
  | Some t =>
      when (tm_due t <=? now)%Z
        (modify (fun s => set_timers (remove_timer i (timers s)) s) ;;
         runTimer now (tm_cb t))
  | None => ret tt
  end.

Definition handle (now : Z) (ev : event) : M unit :=
  match ev with
  | Connect => connect now
  | Disconnect => disconnect
  | Execute command => execute now command
  | StdoutData text => onStdout now text
  | StderrData text => onStderr text
  | Exit => onExit
  | ProcError message => onError message
  | Timer i => onTimer now i
  end.

(** The code waiting on settled promises runs after the handler. *)
Definition drain : M unit :=
  s <- get ;;
  modify (set_microtasks []) ;;
  forEach (microtasks s) connectContinue.

(** One turn of the event loop. *)
Definition step (s : state) (ev : Z * event) : state * list out :=
  match handle (fst ev) (snd ev) s with
  | (r, s1, o1) =>
      match drain s1 with
      | (_, s2, o2) =>
          (s2, o1 ++ match r with Ok _ => [] | Throw => [Uncaught] end ++ o2)
      end
  end.

Fixpoint run (s : state) (evs : list (Z * event)) : state * list out :=
  match evs with
  | [] => (s, [])
  | ev :: r =>
      let (s1, o1) := step s ev in
      let (s2, o2) := run s1 r in
      (s2, o1 ++ o2)
  end.

End Main.

(** ** server.js: the Express and WebSocket server *)

Module Server.

(** [isPrompt] *)
Definition isPrompt (line : jsstring) : bool := matches_prompt line.

(** Assigning fields of the tracker that is the current command. *)
Definition updateCurrent (f : tracker -> tracker) : M unit :=
  cur <- currentCommand ;;
  match cur with
  | Some t => setCurrentCommand (Some (f t))
  | None => ret tt
  end.

Definition set_outputTimeout (v : option nat) (t : tracker) : tracker :=
  {| t_ref := t_ref t; t_id := t_id t; t_command := t_command t;
     t_resolve := t_resolve t; t_timeout := t_timeout t;
     t_outputTimeout := v; t_lastOutputTime := t_lastOutputTime t;
     t_earlyCompleteScheduled := t_earlyCompleteScheduled t |}.

Definition set_lastOutputTime (v : Z) (t : tracker) : tracker :=
  {| t_ref := t_ref t; t_id := t_id t; t_command := t_command t;
     t_resolve := t_resolve t; t_timeout := t_timeout t;
     t_outputTimeout := t_outputTimeout t; t_lastOutputTime := v;
     t_earlyCompleteScheduled := t_earlyCompleteScheduled t |}.

Definition set_earlyCompleteScheduled (v : bool) (t : tracker) : tracker :=
  {| t_ref := t_ref t; t_id := t_id t; t_command := t_command t;
     t_resolve := t_resolve t; t_timeout := t_timeout t;
     t_outputTimeout := t_outputTimeout t;
     t_lastOutputTime := t_lastOutputTime t;
     t_earlyCompleteScheduled := v |}.

(** The closure [completeCommand] of [processNextCommand].  It captures the
    tracker (identity [ref]) with [commandId] and the promise [p];
    [processNext] is the call of [processNextCommand] at its end. *)
Definition completeCommandK (processNext : M unit)
    (ref : nat) (commandId : cmdid) (p : nat) : M unit :=
  cur <- currentCommand ;;
  match cur with
  | Some t =>
      when (t_ref t =? ref)%nat
        (full <- fullOutput commandId ;;
         deleteOutput commandId ;;
         modify (set_isExecutingCommand false) ;;
         setCurrentCommand None ;;
         clearTimeout (t_timeout t) ;;
         clearTimeout (t_outputTimeout t) ;;
         emit (Resolve p {| exitCode := 0; output := full |}) ;;
         processNext)
  | None => ret tt
  end.

(** The closure [checkOutputActivity] of [processNextCommand]. *)
Definition checkOutputActivityK (processNext : M unit) (now : Z)
    (ref : nat) (commandId : cmdid) (p : nat) : M unit :=
  cur <- currentCommand ;;
  match cur with
  | Some t =>
      when (t_ref t =? ref)%nat
        (s <- get ;;
         if (1000 <=? now - t_lastOutputTime t)%Z
            && match map_get commandId (commandOutputs s) with
               | Some o => (0 <? List.length (o_stdout o))%nat
               | None => false
               end
         then completeCommandK processNext ref commandId p
         else
           tm <- setTimeout now (OutputActivity ref commandId p) 200 ;;
           updateCurrent (set_outputTimeout (Some tm)))
  | None => ret tt
  end.

(** The body of [processNextCommand]; [self] is the function itself, as
    [completeCommand] calls it. *)
Definition processNextBody (self : M unit) (now : Z) : M unit :=
  s <- get ;;
  match commandQueue s with
  | [] => ret tt
  | q :: rest =>
      if isExecutingCommand s then ret tt
      else
        modify (set_commandQueue rest) ;;
        modify (set_isExecutingCommand true) ;;
        modify (fun s =>
          set_commandOutputs
            (map_set (q_commandId q) {| o_stdout := []; o_stderr := [] |}
                     (commandOutputs s)) s) ;;
        ref <- fresh ;;
        checkOutputActivityK self now ref (q_commandId q) (q_resolve q) ;;
        tm <- setTimeout now
                (HardTimeout ref (q_commandId q) (q_resolve q)) 5000 ;;
        setCurrentCommand
          (Some {| t_ref := ref; t_id := q_commandId q;
                   t_command := q_command q; t_resolve := q_resolve q;
                   t_timeout := Some tm; t_outputTimeout := None;
                   t_lastOutputTime := now;
                   t_earlyCompleteScheduled := false |}) ;;
        s <- get ;;
        match rdeProcess s with
        | Some p => emit (StdinWrite (p_pid p) (q_command q ++ [NL]))
        | None => throw
        end
  end.

(** Every nested call of [processNextCommand] finds a shorter queue. *)
Fixpoint processNextCommandN (fuel : nat) (now : Z) : M unit :=
  match fuel with
  | O => ret tt
  | S fuel' => processNextBody (processNextCommandN fuel' now) now
  end.

(** [processNextCommand] *)
Definition processNextCommand (now : Z) : M unit :=
  fun s => processNextCommandN (S (List.length (commandQueue s))) now s.

Definition completeCommand (now : Z) := completeCommandK (processNextCommand now).

Definition checkOutputActivity (now : Z) :=
  checkOutputActivityK (processNextCommand now) now.

(** The callback of the 5 s fallback timer of [processNextCommand]. *)
Definition hardTimeout (now : Z) (ref : nat) (commandId : cmdid) (p : nat)
  : M unit :=
  cur <- currentCommand ;;
  match cur with
  | Some t => when (t_ref t =? ref)%nat (completeCommand now ref commandId p)
  | None => ret tt
  end.

(** The callback of the 2 s timer set by the stdout handler; it captures
    [tracker], of which it reads [id], [resolve] and [timeout]. *)
Definition earlyComplete (now : Z) (id : cmdid) (p : nat)
    (timeout : option nat) : M unit :=
  cur <- currentCommand ;;
  match cur with
  | Some c =>
      when (cmdid_eqb (t_id c) id)
        (full <- fullOutput id ;;
         deleteOutput id ;;
         modify (set_isExecutingCommand false) ;;
         setCurrentCommand None ;;
         clearTimeout timeout ;;
         emit (Resolve p {| exitCode := 0; output := full |}) ;;
         processNextCommand now)
  | None => ret tt
  end.

(** The body of [lines.forEach] in the stdout handler. *)
Definition stdoutLine (now : Z) (line : jsstring) : M unit :=
  cur <- currentCommand ;;
  match cur with
  | Some tracker =>
      s <- get ;;
      when (match map_get (t_id tracker) (commandOutputs s) with
            | Some _ => false | None => true end)
        (modify (fun s =>
           set_commandOutputs
             (map_set (t_id tracker) {| o_stdout := []; o_stderr := [] |}
                      (commandOutputs s)) s)) ;;
      when (truthy (trim line))
        (when (negb (isPrompt line))
           (pushStdout (t_id tracker) (trim line) ;;
            updateCurrent (set_lastOutputTime now) ;;
            emit (CommandOutput (t_id tracker) Stdout (trim line)) ;;
            when (truthy (t_command tracker)
                  && includes (lit "supervisorctl status") (t_command tracker))
              (cur <- currentCommand ;;
               match cur with
               | Some t =>
                   when (negb (t_earlyCompleteScheduled t))
                     (updateCurrent (set_earlyCompleteScheduled true) ;;
                      _ <- setTimeout now
                             (EarlyServer (t_id tracker) (t_resolve tracker)
                                          (t_timeout tracker)) 2000 ;;
                      ret tt)
               | None => ret tt
               end)))
  | None => ret tt
  end ;;
  when (isPrompt line)
    (cur <- currentCommand ;;
     match cur with
     | Some tracker =>
         full <- fullOutput (t_id tracker) ;;
         deleteOutput (t_id tracker) ;;
         modify (set_isExecutingCommand false) ;;
         setCurrentCommand None ;;
         clearTimeout (t_timeout tracker) ;;
         clearTimeout (t_outputTimeout tracker) ;;
         emit (Resolve (t_resolve tracker)
                       {| exitCode := 0; output := full |}) ;;
         processNextCommand now
     | None => ret tt
     end).

(** [rdeProcess.stdout.on('data', ...)] *)
Definition onStdout (now : Z) (text : jsstring) : M unit :=
  welcome text ;;
  forEach (split_nl text) (stdoutLine now).

(** [rdeProcess.stderr.on('data', ...)]: only a diagnostic message. *)
Definition onStderr (text : jsstring) : M unit := ret tt.

(** [if (connectionResolve) { connectionResolve(new Error(...)); ... }]:
    [connectionResolve] is the promise's resolve function, so the call
    fulfils the connect wait, with the error as its value. *)
Definition resolvePendingConnection : M unit :=
  s <- get ;;
  match connectionResolve s with
  | Some k => settleConnect k None ;; modify (set_connectionResolve None)
  | None => ret tt
  end.

(** [rdeProcess.on('exit', ...)] *)
Definition onExit : M unit :=
  modify (set_rdeProcess None) ;;
  modify (set_currentTarget None) ;;
  resolvePendingConnection ;;
  s <- get ;;
  forEach (commandQueue s) (fun q => emit (Reject (q_resolve q) SessionClosed)) ;;
  modify (set_commandQueue []) ;;
  modify (set_commandOutputs []) ;;
  modify (set_isExecutingCommand false) ;;
  emit (RdeStatus disconnected (lit "RDE session closed")).

(** [rdeProcess.on('error', ...)] *)
Definition onError (message : jsstring) : M unit :=
  modify (set_rdeProcess None) ;;
  modify (set_currentTarget None) ;;
  resolvePendingConnection ;;
  s <- get ;;
  forEach (commandQueue s)
    (fun q => emit (Reject (q_resolve q) (ProcessError message))) ;;
  modify (set_commandQueue []) ;;
  modify (set_commandOutputs []) ;;
  modify (set_isExecutingCommand false) ;;
  emit (RdeStatus failed message).

(** [createRDESession] *)
Definition createRDESession : M unit :=
  s <- get ;;
  match rdeProcess s with
  | Some _ => ret tt
  | None =>
      pid <- fresh ;;
      emit (Spawn pid) ;;
      modify (set_rdeProcess
                (Some {| p_pid := pid; p_currentCommand := None |})) ;;
      modify (set_commandOutputs []) ;;
      modify (set_welcomeBuffer [])
  end.

(** The route '/api/rde/connect' up to [await welcomePromise]. *)
Definition connect (now : Z) : M unit :=
  s <- get ;;
  match currentTarget s, rdeProcess s with
  | Some _, Some _ => emit (ConnectReply true (lit "Already connected"))
  | _, _ =>
      createRDESession ;;
      k <- fresh ;;
      modify (set_connectionResolve (Some k)) ;;
      modify (set_welcomeBuffer []) ;;
      _ <- setTimeout now (ConnectTimeout k) 15000 ;;
      ret tt
  end.

(** The 15 s timer of the connect route. *)
Definition connectTimeout (k : nat) : M unit :=
  s <- get ;;
  match connectionResolve s with
  | Some k' =>
      when (k' =? k)%nat
        (modify (set_connectionResolve None) ;;
         modify (set_welcomeBuffer []) ;;
         settleConnect k (Some ConnectionTimeoutBuffer))
  | None => ret tt
  end.

(** The route '/api/rde/connect' after [await welcomePromise]. *)
Definition connectContinue (settled : nat * option error) : M unit :=
  match snd settled with
  | None =>
      modify (set_currentTarget (Some [])) ;;
      emit (RdeStatus connected (lit "Connected to RDE")) ;;
      emit (ConnectReply true [])
  | Some e =>
      modify (set_connectionResolve None) ;;
      s <- get ;;
      match rdeProcess s with
      | Some _ => closeRDESession
      | None => ret tt
      end ;;
      modify (set_connectionResolve None) ;;
      emit (RdeStatus failed (error_message e)) ;;
      emit (ConnectReply false (error_message e))
  end.

(** The route '/api/rde/disconnect'. *)
Definition disconnect : M unit :=
  closeRDESession ;;
  emit (RdeStatus disconnected (lit "Disconnected")) ;;
  emit DisconnectReply.

(** [executeInRDESession]; the promise is numbered when created. *)
Definition executeInRDESession (now : Z) (command : jsstring)
    (commandId : cmdid) : M unit :=
  p <- fresh ;;
  s <- get ;;
  match rdeProcess s with
  | None => emit (Reject p NotEstablished)
  | Some _ =>
      modify (fun s =>
        set_commandQueue
          (commandQueue s ++ [{| q_command := command;
                                 q_commandId := commandId;
                                 q_resolve := p |}]) s) ;;
      s <- get ;;
      when (negb (isExecutingCommand s)) (processNextCommand now)
  end.

(** The route '/api/command/execute' up to [await promise]. *)
Definition execute (now : Z) (command : jsstring) : M unit :=
  s <- get ;;
  match currentTarget s with
  | None => emit (ExecuteReply false (lit "Not connected"))
  | Some _ =>
      commandId <- generateCommandId now ;;
      executeInRDESession now command commandId
  end.

Definition runTimer (now : Z) (cb : timer) : M unit :=
  match cb with
  | HardTimeout ref commandId p => hardTimeout now ref commandId p
  | EarlyServer id p timeout => earlyComplete now id p timeout
  | OutputActivity ref commandId p => checkOutputActivity now ref commandId p
  | ConnectTimeout k => connectTimeout k
  | EarlyMain _ => ret tt            (* not created by server.js *)
  end.

(** A timer runs once, and not before it is due. *)
Definition onTimer (now : Z) (i : nat) : M unit :=
  s <- get ;;
  match find_timer i (timers s) with
  | Some t =>
      when (tm_due t <=? now)%Z
        (modify (fun s => set_timers (remove_timer i (timers s)) s) ;;
         runTimer now (tm_cb t))
  | None => ret tt
  end.

Definition handle (now : Z) (ev : event) : M unit :=
  match ev with
  | Connect => connect now
  | Disconnect => disconnect
  | Execute command => execute now command
  | StdoutData text => onStdout now text
  | StderrData text => onStderr text
  | Exit => onExit
  | ProcError message => onError message
  | Timer i => onTimer now i
  end.

(** The code waiting on settled promises runs after the handler. *)
Definition drain : M unit :=
  s <- get ;;
  modify (set_microtasks []) ;;
  forEach (microtasks s) connectContinue.

(** One turn of the event loop. *)
Definition step (s : state) (ev : Z * event) : state * list out :=
  match handle (fst ev) (snd ev) s with
  | (r, s1, o1) =>
      match drain s1 with
      | (_, s2, o2) =>
          (s2, o1 ++ match r with Ok _ => [] | Throw => [Uncaught] end ++ o2)
      end
  end.

Fixpoint run (s : state) (evs : list (Z * event)) : state * list out :=
  match evs with
  | [] => (s, [])
  | ev :: r =>
      let (s1, o1) := step s ev in
      let (s2, o2) := run s1 r in
      (s2, o1 ++ o2)
  end.

End Server.

(** ** main.js: the stdout handler of a [logs/tail] stream *)

Module LogTail.

(** The two variables the handler closes over. *)
Record stream := { buffer : jsstring; currentFile : option jsstring }.

(** The payload of a 'logs/line' event; the stream id is the same for all
    events of one stream. *)
Record logs_line := { file : option jsstring; line : jsstring }.

(** [let buffer = ''; let currentFile = files[0];] *)
Definition start (files : list jsstring) : stream :=
  {| buffer := []; currentFile := hd_error files |}.

(** The body of [lines.forEach]. *)
Definition onLine (cf : option jsstring) (l : jsstring)
  : option jsstring * list logs_line :=
  let trimmedLine := trim l in
  if negb (truthy trimmedLine) then (cf, [])
  else
    match fileHeaderMatch trimmedLine with
    | Some f => (Some f, [])
    | None => (cf, [{| file := cf; line := trimmedLine |}])
    end.

Fixpoint forLines (cf : option jsstring) (lines : list jsstring)
  : option jsstring * list logs_line :=
  match lines with
  | [] => (cf, [])
  | l :: r =>
      let (cf1, o1) := onLine cf l in
      let (cf2, o2) := forLines cf1 r in
      (cf2, o1 ++ o2)
  end.

(** [childProcess.stdout.on('data', ...)] *)
Definition onData (st : stream) (text : jsstring) : stream * list logs_line :=
  let lines := split_nl (buffer st ++ text) in
  let (cf, o) := forLines (currentFile st) (removelast lines) in
  ({| buffer := last lines []; currentFile := cf |}, o).

Fixpoint run (st : stream) (chunks : list jsstring)
  : stream * list logs_line :=
  match chunks with
  | [] => (st, [])
  | c :: r =>
      let (st1, o1) := onData st c in
      let (st2, o2) := run st1 r in
      (st2, o1 ++ o2)
  end.

End LogTail.


(** ** Vocabulary of the statements *)

Module Vocabulary.

(** A line as [tail] announces a file: [==> path <==]. *)
Definition header (path : jsstring) : jsstring :=
  lit "==> " ++ path ++ lit " <==".

(** A path without white space. *)
Definition plain_path (path : jsstring) : Prop :=
  path <> [] /\ Forall (fun c => is_ws c = false) path.

(** The text made of the given lines, each with its terminator. *)
Definition terminated (lines : list jsstring) : jsstring :=
  List.concat (map (fun l => l ++ [NL]) lines).

(** A line of a log that is forwarded: not blank, not a header. *)
Definition content_line (l : jsstring) : Prop :=
  ~ In NL l /\ truthy (trim l) = true /\ fileHeaderMatch (trim l) = None.

(** Not empty, and neither the first nor the last character is white
    space. *)
Definition clean (l : jsstring) : Prop :=
  l <> [] /\ is_ws (hd 0%N l) = false /\ is_ws (last l 0%N) = false.

(** A line stored or forwarded in trimmed form: clean, and on one line. *)
Definition clean_line (l : jsstring) : Prop := clean l /\ ~ In NL l.

(** Every line held in [commandOutputs] as captured stdout is clean. *)
Definition lines_stored_clean (s : state) : Prop :=
  Forall (fun kv => Forall clean_line (o_stdout (snd kv))) (commandOutputs s).

(** An output of a handler carries only clean lines: the text of a streamed
    stdout event is one, and a result is the join of such lines. *)
Definition clean_out (o : out) : Prop :=
  match o with
  | CommandOutput _ Stdout text => clean_line text
  | Resolve _ r =>
      exists ls, output r = join_nl ls /\ Forall clean_line ls
  | _ => True
  end.

(** The results delivered, in order. *)
Fixpoint delivered (outs : list out) : list (nat * result) :=
  match outs with
  | [] => []
  | Resolve p r :: rest => (p, r) :: delivered rest
  | _ :: rest => delivered rest
  end.

(** The command in the Active slot, if there is a session process. *)
Definition active (s : state) : option tracker :=
  match rdeProcess s with
  | Some p => p_currentCommand p
  | None => None
  end.

(** An output that is not a delivered result. *)
Definition no_resolve (o : out) : Prop :=
  match o with Resolve _ _ => False | _ => True end.

(** The result of a handler with further outputs in front. *)
Definition prepend {A} (o : list out) (x : outcome A * state * list out)
  : outcome A * state * list out :=
  (fst (fst x), snd (fst x), o ++ snd x).

(** The state the slot is left in when the Active command [t] completes:
    its entry of [commandOutputs] deleted, the slot and the executing flag
    cleared; [cleared] are the timers the completing path cancels. *)
Definition completed (cleared : list (option nat)) (t : tracker) (s : state)
  : state :=
  let tms := fold_left (fun l x =>
                          match x with
                          | Some i => remove_timer i l
                          | None => l
                          end) cleared (timers s) in
  {| currentTarget := currentTarget s;
     rdeProcess :=
       match rdeProcess s with
       | Some p => Some {| p_pid := p_pid p; p_currentCommand := None |}
       | None => None
       end;
     commandQueue := commandQueue s;
     isExecutingCommand := false;
     commandOutputs := map_delete (t_id t) (commandOutputs s);
     commandCounter := commandCounter s;
     connectionResolve := connectionResolve s;
     welcomeBuffer := welcomeBuffer s;
     timers := tms;
     nextId := nextId s;
     microtasks := microtasks s |}.

(** What a trigger delivers for the Active command [t]. *)
Definition result_of (s : state) (t : tracker) : out :=
  Resolve (t_resolve t)
          {| exitCode := 0; output := join_nl (captured s (t_id t)) |}.

(** A delivered result reports exit code 0. *)
Definition exit_zero (o : out) : Prop :=
  match o with Resolve _ r => exitCode r = 0%Z | _ => True end.

(** The state a handler leaves. *)
Definition state_after {A} (x : outcome A * state * list out) : state :=
  snd (fst x).

(** The tracker once its early completion is scheduled. *)
Definition scheduled (t : tracker) : tracker :=
  {| t_ref := t_ref t; t_id := t_id t; t_command := t_command t;
     t_resolve := t_resolve t; t_timeout := t_timeout t;
     t_outputTimeout := t_outputTimeout t;
     t_lastOutputTime := t_lastOutputTime t;
     t_earlyCompleteScheduled := true |}.

(** A line that is captured: not blank, not a prompt. *)
Definition captured_line (line : jsstring) : Prop :=
  truthy (trim line) = true /\ matches_prompt line = false.

(** The command text falls under the early-completion policy. *)
Definition early_policy (command : jsstring) : Prop :=
  includes (lit "supervisorctl status") command = true.

(** The pending timers that are early-completion timers. *)
Definition early_timers (s : state) : list pending :=
  filter (fun tm => match tm_cb tm with
                    | EarlyMain _ | EarlyServer _ _ _ => true
                    | _ => false
                    end) (timers s).

(** The captured stdout lines of every entry of [commandOutputs]. *)
Definition stdout_view (m : list (cmdid * outbuf))
  : list (cmdid * list jsstring) :=
  map (fun kv => (fst kv, o_stdout (snd kv))) m.

(** Two states that differ at most in the stderr arrays of
    [commandOutputs]. *)
Definition same_but_stderr (s s' : state) : Prop :=
  currentTarget s' = currentTarget s /\
  rdeProcess s' = rdeProcess s /\
  commandQueue s' = commandQueue s /\
  isExecutingCommand s' = isExecutingCommand s /\
  stdout_view (commandOutputs s') = stdout_view (commandOutputs s) /\
  commandCounter s' = commandCounter s /\
  connectionResolve s' = connectionResolve s /\
  welcomeBuffer s' = welcomeBuffer s /\
  timers s' = timers s /\
  nextId s' = nextId s /\
  microtasks s' = microtasks s.

(** The resolve or the reject function of promise [p] was called. *)
Definition settled (p : nat) (outs : list out) : bool :=
  existsb (fun o => match o with
                    | Resolve q _ | Reject q _ => (q =? p)%nat
                    | _ => false
                    end) outs.

(** A timer closure other than the inactivity check. *)
Definition not_activity (cb : timer) : Prop :=
  match cb with OutputActivity _ _ _ => False | _ => True end.

(** No inactivity check is pending, and the tracker in the slot was created
    before the next object will be. *)
Definition poll_never_armed (s : state) : Prop :=
  (forall t, active s = Some t -> t_ref t < nextId s) /\
  Forall (fun tm => not_activity (tm_cb tm)) (timers s).

(** The command in the Active slot has its entry in [commandOutputs]. *)
Definition entries_present (s : state) : Prop :=
  forall t, active s = Some t -> map_get (t_id t) (commandOutputs s) <> None.

End Vocabulary.
Import Vocabulary.


(** ** Sample runs *)

Module Scenario.

(** Connecting: the greeting arrives, then the first prompt. *)
Definition connecting : list (Z * event) :=
  [ (0%Z, Connect);
    (10%Z, StdoutData (lit "Welcome to RDE" ++ NL :: lit "$ ")) ].

(** [echo ok] submitted on the connected session. *)
Definition echo_ok : list (Z * event) :=
  connecting ++ [ (20%Z, Execute (lit "echo ok")) ].

(** The supervisor status command submitted on the connected session. *)
Definition status_all : list (Z * event) :=
  connecting ++ [ (20%Z, Execute (lit "sudo supervisorctl status all")) ].

(** Five lines of status output in three chunks, and no prompt. *)
Definition five_lines : list (Z * event) :=
  [ (100%Z, StdoutData (lit "api RUNNING" ++ NL :: lit "risk RUNNING"
                          ++ [NL]));
    (150%Z, StdoutData (lit "  llm STOPPED  " ++ NL :: lit "ocr RUNNING"
                          ++ [NL]));
    (200%Z, StdoutData (lit "spv FATAL" ++ [NL])) ].

(** The tracker in the Active slot, for a state that has one. *)
Definition the_active (s : state) : tracker :=
  match active s with
  | Some t => t
  | None =>
      {| t_ref := 0; t_id := {| id_time := 0; id_counter := 0 |};
         t_command := []; t_resolve := 0; t_timeout := None;
         t_outputTimeout := None; t_lastOutputTime := 0;
         t_earlyCompleteScheduled := false |}
  end.

(** main.js after [echo ok] has printed its line, before the prompt. *)
Definition main_ok_printed : state :=
  fst (Main.run init (echo_ok ++ [(30%Z, StdoutData (lit "ok" ++ [NL]))])).

(** server.js at the same point. *)
Definition server_ok_printed : state :=
  fst (Server.run init (echo_ok ++ [(30%Z, StdoutData (lit "ok" ++ [NL]))])).

(** main.js once the status command has been written to the session. *)
Definition main_status_started : state := fst (Main.run init status_all).

(** A second command queued behind [echo ok], then the session process
    exits; later the timers that are still pending run. *)
Definition exit_while_active : list (Z * event) :=
  echo_ok ++
  [ (21%Z, Execute (lit "pwd")); (30%Z, Exit);
    (15000%Z, Timer 2); (30020%Z, Timer 5) ].

(** The session process exits before the greeting has arrived. *)
Definition exit_while_connecting : list (Z * event) :=
  [ (0%Z, Connect); (10%Z, Exit) ].

(** A second connect request on the connected session, with nothing more
    on stdout until its 15 s timer runs. *)
Definition connect_again : list (Z * event) :=
  connecting ++ [ (20%Z, Connect); (15020%Z, Timer 4) ].

(** server.js after [echo ok] has printed its line, the chunk arriving at
    time 100. *)
Definition server_quiet : state :=
  fst (Server.run init (echo_ok ++ [(100%Z, StdoutData (lit "ok" ++ [NL]))])).

End Scenario.

(** * Properties *)

Unset Implicit Arguments.

(** ** Strings *)

Section StringFacts.

Lemma split_nl_nonempty (s : jsstring) : split_nl s <> [].
Proof.
  destruct s as [|c r]; simpl; [discriminate|].
  destruct (c =? NL)%N; [discriminate|].
  destruct (split_nl r); discriminate.
Qed.

Lemma split_nl_cons_other (c : N) (r : jsstring) :
  (c =? NL)%N = false ->
  split_nl (c :: r) = (c :: hd [] (split_nl r)) :: tl (split_nl r).
Proof.
  intros H. simpl. rewrite H.
  destruct (split_nl r) eqn:E; [|reflexivity].
  exfalso. exact (split_nl_nonempty r E).
Qed.

Lemma removelast_cons {A} (x : A) (l : list A) :
  l <> [] -> removelast (x :: l) = x :: removelast l.
Proof. destruct l; [congruence|reflexivity]. Qed.

Lemma last_cons {A} (x d : A) (l : list A) :
  l <> [] -> last (x :: l) d = last l d.
Proof. destruct l; [congruence|reflexivity]. Qed.

(** Splitting a concatenation: the last piece of the first part is
    continued by the second part. *)
Lemma split_nl_app (a b : jsstring) :
  split_nl (a ++ b) =
  removelast (split_nl a) ++ split_nl (last (split_nl a) [] ++ b).
Proof.
  induction a as [|c r IH].
  - reflexivity.
  - destruct (c =? NL)%N eqn:E.
    + simpl. rewrite E.
      pose proof (split_nl_nonempty r) as Hne.
      destruct (split_nl r) as [|l ls] eqn:Er; [congruence|].
      rewrite IH. reflexivity.
    + change ((c :: r) ++ b) with (c :: (r ++ b)).
      rewrite (split_nl_cons_other c (r ++ b) E), (split_nl_cons_other c r E).
      rewrite IH.
      pose proof (split_nl_nonempty r) as Hne.
      destruct (split_nl r) as [|l ls] eqn:Er; [congruence|].
      destruct ls as [|l2 ls2].
      * cbn [hd tl removelast last app].
        change ((c :: l) ++ b) with (c :: (l ++ b)).
        rewrite (split_nl_cons_other c (l ++ b) E).
        reflexivity.
      * reflexivity.
Qed.

Lemma split_nl_no_nl (s : jsstring) :
  Forall (fun l => ~ In NL l) (split_nl s).
Proof.
  induction s as [|c r IH]; simpl.
  - constructor; [intros []|constructor].
  - destruct (c =? NL)%N eqn:E.
    + constructor; [intros []|exact IH].
    + destruct (split_nl r) as [|l ls]; [constructor; [|constructor]|].
      * intros [H|[]]. subst c. discriminate.
      * inversion IH; subst. constructor; [|assumption].
        intros [H|H]; [subst c; discriminate|contradiction].
Qed.

Lemma split_nl_single (s : jsstring) : ~ In NL s -> split_nl s = [s].
Proof.
  induction s as [|c r IH]; intros H; [reflexivity|].
  simpl. destruct (c =? NL)%N eqn:E.
  - apply N.eqb_eq in E. subst c. exfalso. apply H. left. reflexivity.
  - rewrite IH; [reflexivity|]. intros Hin. apply H. right. exact Hin.
Qed.

Lemma last_In {A} (l : list A) (d : A) : l <> [] -> In (last l d) l.
Proof.
  induction l as [|x r IH]; [congruence|].
  intros _. destruct r as [|y r'].
  - left. reflexivity.
  - right. apply IH. discriminate.
Qed.

Lemma last_app_nonempty {A} (l1 l2 : list A) (d : A) :
  l2 <> [] -> last (l1 ++ l2) d = last l2 d.
Proof.
  intros H. induction l1 as [|x r IH]; [reflexivity|].
  simpl. destruct (r ++ l2) eqn:E; [|exact IH].
  apply app_eq_nil in E. destruct E. congruence.
Qed.

Lemma removelast_app_nonempty {A} (l1 l2 : list A) :
  l2 <> [] -> removelast (l1 ++ l2) = l1 ++ removelast l2.
Proof. intros H. apply removelast_app. exact H. Qed.

End StringFacts.

(** ** Log streams *)

Section LogTailFacts.

Import LogTail.

Lemma forLines_app (cf : option jsstring) (l1 l2 : list jsstring) :
  forLines cf (l1 ++ l2) =
  let (cf1, o1) := forLines cf l1 in
  let (cf2, o2) := forLines cf1 l2 in
  (cf2, o1 ++ o2).
Proof.
  revert cf. induction l1 as [|x r IH]; intros cf; simpl.
  - destruct (forLines cf l2). reflexivity.
  - destruct (onLine cf x) as [cf1 o1]. rewrite IH.
    destruct (forLines cf1 r) as [cf2 o2].
    destruct (forLines cf2 l2) as [cf3 o3].
    rewrite app_assoc. reflexivity.
Qed.

(** Two chunks in a row do what their concatenation does. *)
Lemma onData_app (st : stream) (a b : jsstring) :
  onData st (a ++ b) =
  let (st1, o1) := onData st a in
  let (st2, o2) := onData st1 b in
  (st2, o1 ++ o2).
Proof.
  unfold onData. rewrite app_assoc, split_nl_app.
  set (la := split_nl (buffer st ++ a)).
  set (lb := split_nl (last la [] ++ b)).
  assert (Hb : lb <> []) by apply split_nl_nonempty.
  rewrite removelast_app_nonempty, last_app_nonempty by exact Hb.
  rewrite forLines_app.
  destruct (forLines (currentFile st) (removelast la)) as [cf1 o1].
  simpl. fold lb.
  destruct (forLines cf1 (removelast lb)) as [cf2 o2]. reflexivity.
Qed.

Lemma onData_nil (st : stream) :
  ~ In NL (buffer st) -> onData st [] = (st, []).
Proof.
  intros H. unfold onData. rewrite app_nil_r, (split_nl_single _ H).
  simpl. destruct st. reflexivity.
Qed.

Lemma onData_buffer (st : stream) (text : jsstring) :
  ~ In NL (buffer (fst (onData st text))).
Proof.
  unfold onData.
  destruct (forLines (currentFile st)
              (removelast (split_nl (buffer st ++ text)))) as [cf o].
  simpl.
  pose proof (split_nl_no_nl (buffer st ++ text)) as HF.
  rewrite Forall_forall in HF. apply HF.
  apply last_In, split_nl_nonempty.
Qed.

(** A run over chunks is one call on their concatenation. *)
Lemma run_concat (chunks : list jsstring) (st : stream) :
  ~ In NL (buffer st) -> run st chunks = onData st (List.concat chunks).
Proof.
  revert st. induction chunks as [|c r IH]; intros st H; simpl.
  - symmetry. apply onData_nil. exact H.
  - rewrite onData_app.
    pose proof (onData_buffer st c) as Hb.
    destruct (onData st c) as [st1 o1]. simpl in Hb.
    rewrite (IH st1 Hb). reflexivity.
Qed.



Lemma onLine_blank (cf : option jsstring) (l : jsstring) :
  trim l = [] -> onLine cf l = (cf, []).
Proof. intros H. unfold onLine. rewrite H. reflexivity. Qed.

Lemma onLine_header (cf : option jsstring) (l f : jsstring) :
  fileHeaderMatch (trim l) = Some f -> onLine cf l = (Some f, []).
Proof.
  intros H. unfold onLine. rewrite H.
  destruct (trim l); [discriminate H|reflexivity].
Qed.

Lemma onLine_content (cf : option jsstring) (l : jsstring) :
  truthy (trim l) = true -> fileHeaderMatch (trim l) = None ->
  onLine cf l = (cf, [{| file := cf; line := trim l |}]).
Proof. intros H1 H2. unfold onLine. rewrite H1, H2. reflexivity. Qed.

Lemma ws_is_line_terminator (c : N) :
  is_ws c = false -> is_line_terminator c = false.
Proof.
  unfold is_ws, is_line_terminator. intros H.
  repeat (apply orb_false_iff in H; destruct H as [H ?]).
  repeat (apply orb_false_iff; split); assumption.
Qed.

Lemma lazy_capture_path (p acc : jsstring) :
  p <> [] -> Forall (fun c => is_ws c = false) p ->
  lazy_capture acc (p ++ lit " <==") = Some (acc ++ p).
Proof.
  revert acc. induction p as [|c r IH]; intros acc Hne HF; [congruence|].
  inversion HF as [|? ? Hc Hr]; subst.
  simpl. rewrite (ws_is_line_terminator c Hc).
  destruct r as [|c' r'].
  - reflexivity.
  - inversion Hr as [|? ? Hc' ?]; subst.
    cbn [app match_tail]. rewrite Hc'. cbn [andb].
    change (c' :: r' ++ lit " <==") with ((c' :: r') ++ lit " <==").
    rewrite IH by (congruence || assumption).
    rewrite <- app_assoc. reflexivity.
Qed.

(** The announcement of a plain path is a header, and names that path. *)
Lemma fileHeaderMatch_header (p : jsstring) :
  plain_path p -> fileHeaderMatch (header p) = Some p.
Proof.
  intros [Hne HF]. unfold header.
  destruct p as [|c r]; [congruence|].
  inversion HF as [|? ? Hc Hr]; subst.
  change (lit "==> " ++ (c :: r) ++ lit " <==")
    with (61 :: 61 :: 62 :: 32 :: (c :: r) ++ lit " <==")%N.
  cbn [fileHeaderMatch].
  assert (Hrun : ws_run (32%N :: (c :: r) ++ lit " <==") = 1%nat).
  { unfold ws_run. cbn [trimStart app]. change (is_ws 32) with true. cbv iota.
    rewrite Hc. cbn [List.length]. lia. }
  rewrite Hrun. cbn [try_ws skipn].
  rewrite lazy_capture_path by (congruence || assumption).
  reflexivity.
Qed.

Lemma trimStart_id (s : jsstring) :
  is_ws (hd 0%N s) = false -> trimStart s = s.
Proof. destruct s as [|c r]; [reflexivity|]. simpl. intros ->. reflexivity. Qed.

Lemma hd_rev_last (s : jsstring) (d : N) : hd d (rev s) = last s d.
Proof.
  induction s as [|c r IH]; [reflexivity|].
  simpl rev. destruct r as [|c' r'].
  - reflexivity.
  - rewrite last_cons by discriminate. rewrite <- IH.
    destruct (rev (c' :: r')) eqn:E; [|reflexivity].
    apply (f_equal (@List.length N)) in E. rewrite length_rev in E.
    discriminate.
Qed.

Lemma trim_id (s : jsstring) :
  is_ws (hd 0%N s) = false -> is_ws (last s 0%N) = false -> trim s = s.
Proof.
  intros H1 H2. unfold trim, trimEnd.
  rewrite (trimStart_id s H1), trimStart_id, rev_involutive; [reflexivity|].
  rewrite hd_rev_last. exact H2.
Qed.

Lemma trim_header (p : jsstring) : trim (header p) = header p.
Proof.
  apply trim_id; [reflexivity|].
  unfold header. rewrite app_assoc, last_app_nonempty by discriminate.
  reflexivity.
Qed.

Lemma split_nl_line (l rest : jsstring) :
  ~ In NL l -> split_nl (l ++ NL :: rest) = l :: split_nl rest.
Proof.
  induction l as [|c r IH]; intros H; [reflexivity|].
  simpl. destruct (c =? NL)%N eqn:E.
  - apply N.eqb_eq in E. subst c. exfalso. apply H. left. reflexivity.
  - rewrite IH; [reflexivity|]. intros Hin. apply H. right. exact Hin.
Qed.

Lemma split_nl_terminated (ls : list jsstring) :
  Forall (fun l => ~ In NL l) ls -> split_nl (terminated ls) = ls ++ [[]].
Proof.
  induction ls as [|l r IH]; intros HF; [reflexivity|].
  inversion HF as [|? ? Hl Hr]; subst.
  change (terminated (l :: r)) with ((l ++ [NL]) ++ terminated r).
  rewrite <- app_assoc. cbn [app].
  rewrite (split_nl_line l _ Hl), IH by assumption. reflexivity.
Qed.

Lemma plain_path_header_no_nl (p : jsstring) :
  plain_path p -> ~ In NL (header p).
Proof.
  intros [_ HF] Hin. unfold header in Hin.
  apply in_app_or in Hin. destruct Hin as [Hin|Hin].
  - vm_compute in Hin. intuition discriminate.
  - apply in_app_or in Hin. destruct Hin as [Hin|Hin].
    + rewrite Forall_forall in HF. specialize (HF _ Hin). discriminate.
    + vm_compute in Hin. intuition discriminate.
Qed.

(** C8: on a log stream every complete line in the header format
    [==> path <==] sets the current file and is not forwarded, every other
    line that is not blank is forwarded (trimmed) with the current file; for
    a header for file A, three content lines, a header for file B and two
    content lines, cut into chunks in any way, exactly three forwarded lines
    carry A and then two carry B, in the order received. *)
Theorem C8_log_header_attribution :
  (forall (cf : option jsstring) (l f : jsstring),
      fileHeaderMatch (trim l) = Some f -> onLine cf l = (Some f, []))
  /\
  (forall (cf : option jsstring) (l : jsstring),
      truthy (trim l) = true -> fileHeaderMatch (trim l) = None ->
      onLine cf l = (cf, [{| file := cf; line := trim l |}]))
  /\
  (forall p : jsstring,
      plain_path p -> fileHeaderMatch (trim (header p)) = Some p)
  /\
  (forall (files chunks : list jsstring) (A B c1 c2 c3 c4 c5 : jsstring),
      plain_path A -> plain_path B ->
      content_line c1 -> content_line c2 -> content_line c3 ->
      content_line c4 -> content_line c5 ->
      List.concat chunks =
        terminated [header A; c1; c2; c3; header B; c4; c5] ->
      snd (run (start files) chunks) =
        [ {| file := Some A; line := trim c1 |};
          {| file := Some A; line := trim c2 |};
          {| file := Some A; line := trim c3 |};
          {| file := Some B; line := trim c4 |};
          {| file := Some B; line := trim c5 |} ]).
Proof.
  split; [exact onLine_header|].
  split; [exact onLine_content|].
  split.
  { intros p Hp. rewrite trim_header. apply fileHeaderMatch_header, Hp. }
  intros files chunks A B c1 c2 c3 c4 c5 HA HB
         [N1 [T1 H1]] [N2 [T2 H2]] [N3 [T3 H3]] [N4 [T4 H4]] [N5 [T5 H5]] Hc.
  rewrite run_concat by (simpl; intros []).
  rewrite Hc. unfold onData. cbn [start buffer currentFile app].
  rewrite split_nl_terminated.
  2:{ repeat (constructor; [first [assumption
                                  | apply plain_path_header_no_nl; assumption]|]).
      constructor. }
  rewrite removelast_app_nonempty by discriminate.
  cbn [removelast app forLines].
  rewrite (onLine_header _ (header A) A)
    by (rewrite trim_header; apply fileHeaderMatch_header, HA).
  rewrite (onLine_content _ c1 T1 H1), (onLine_content _ c2 T2 H2),
          (onLine_content _ c3 T3 H3).
  rewrite (onLine_header _ (header B) B)
    by (rewrite trim_header; apply fileHeaderMatch_header, HB).
  rewrite (onLine_content _ c4 T4 H4), (onLine_content _ c5 T5 H5).
  reflexivity.
Qed.

Lemma C8_witness :
  snd (run (start [lit "/opt/fundbox/logs/api.log"])
         [lit "==> /opt/fundbox/logs/api.log <=" ;
          lit "=" ++ NL :: lit "GET /a" ++ NL :: lit "  GET /b " ++ NL
            :: lit "GET /c" ++ NL :: lit "==> /opt/fundbox/logs/risk.log <=="
            ++ NL :: lit "score 1" ++ [NL];
          lit "score 2" ++ [NL]])
  = [ {| file := Some (lit "/opt/fundbox/logs/api.log");
         line := lit "GET /a" |};
      {| file := Some (lit "/opt/fundbox/logs/api.log");
         line := lit "GET /b" |};
      {| file := Some (lit "/opt/fundbox/logs/api.log");
         line := lit "GET /c" |};
      {| file := Some (lit "/opt/fundbox/logs/risk.log");
         line := lit "score 1" |};
      {| file := Some (lit "/opt/fundbox/logs/risk.log");
         line := lit "score 2" |} ].
Proof.
  apply (proj2 (proj2 (proj2 C8_log_header_attribution))
           [lit "/opt/fundbox/logs/api.log"] _
           (lit "/opt/fundbox/logs/api.log")
           (lit "/opt/fundbox/logs/risk.log")
           (lit "GET /a") (lit "  GET /b ") (lit "GET /c")
           (lit "score 1") (lit "score 2"));
    try (split; [discriminate|
                 repeat constructor]);
    try (split; [vm_compute; intuition discriminate|split; reflexivity]);
    reflexivity.
Defined.

End LogTailFacts.

(** ** Trimming *)

Section TrimFacts.

Lemma trimStart_hd (s : jsstring) :
  trimStart s <> [] -> is_ws (hd 0%N (trimStart s)) = false.
Proof.
  induction s as [|c r IH]; simpl; [congruence|].
  destruct (is_ws c) eqn:E; [exact IH|]. intros _. exact E.
Qed.

(** [trimStart] drops a prefix. *)
Lemma trimStart_suffix (s : jsstring) : exists w, s = w ++ trimStart s.
Proof.
  induction s as [|c r [w IH]]; [exists []; reflexivity|].
  simpl. destruct (is_ws c).
  - exists (c :: w). simpl. rewrite <- IH. reflexivity.
  - exists []. reflexivity.
Qed.

(** [trimEnd] drops a suffix. *)
Lemma trimEnd_prefix (s : jsstring) : exists w, s = trimEnd s ++ w.
Proof.
  unfold trimEnd. destruct (trimStart_suffix (rev s)) as [w H].
  exists (rev w). rewrite <- rev_app_distr, <- H, rev_involutive. reflexivity.
Qed.

Lemma trim_In (s : jsstring) (c : N) : In c (trim s) -> In c s.
Proof.
  unfold trim. intros H.
  destruct (trimEnd_prefix (trimStart s)) as [w1 H1].
  destruct (trimStart_suffix s) as [w2 H2].
  rewrite H2. apply in_or_app. right.
  rewrite H1. apply in_or_app. left. exact H.
Qed.

(** What [trim] returns, unless empty, starts and ends with a character that
    is not white space. *)
Lemma trim_clean (s : jsstring) : truthy (trim s) = true -> clean (trim s).
Proof.
  intros Ht.
  assert (Hne : trim s <> []) by (destruct (trim s); [discriminate|congruence]).
  split; [exact Hne|]. split.
  - destruct (trimEnd_prefix (trimStart s)) as [w Hw]. fold (trim s) in Hw.
    assert (Hs : trimStart s <> []).
    { intros E. rewrite E in Hw. destruct (trim s); [congruence|discriminate]. }
    pose proof (trimStart_hd s Hs) as Hh.
    rewrite Hw in Hh. destruct (trim s); [congruence|exact Hh].
  - unfold trim, trimEnd in *.
    rewrite <- hd_rev_last, rev_involutive.
    apply trimStart_hd. intros E. rewrite E in Hne. apply Hne. reflexivity.
Qed.

Lemma trim_clean_line (s : jsstring) :
  ~ In NL s -> truthy (trim s) = true -> clean_line (trim s).
Proof.
  intros Hn Ht. split; [apply trim_clean, Ht|].
  intros Hin. apply Hn, trim_In, Hin.
Qed.

(** The lines of a joined output are the lines that were joined. *)
Lemma split_join (ls : list jsstring) :
  ls <> [] -> Forall (fun l => ~ In NL l) ls -> split_nl (join_nl ls) = ls.
Proof.
  induction ls as [|l r IH]; intros Hne HF; [congruence|].
  inversion HF as [|? ? Hl Hr]; subst.
  destruct r as [|l2 r2].
  - simpl. apply split_nl_single, Hl.
  - change (join_nl (l :: l2 :: r2)) with (l ++ NL :: join_nl (l2 :: r2)).
    rewrite (split_nl_line l _ Hl), IH by (congruence || assumption).
    reflexivity.
Qed.

End TrimFacts.

(** ** Reasoning about handlers *)

Section Triples.

(** [triple I Q m R]: from a state in [I], the handler [m] ends (normally or
    by an exception) in a state in [I], emits only outputs in [Q], and a
    value it returns is in [R]. *)
Variable I : state -> Prop.
Variable Q : out -> Prop.

Definition triple {A} (m : M A) (R : A -> Prop) : Prop :=
  forall s, I s ->
    match m s with
    | (r, s', o) =>
        I s' /\ Forall Q o /\ match r with Ok a => R a | Throw => True end
    end.

Lemma triple_ret {A} (a : A) (R : A -> Prop) : R a -> triple (ret a) R.
Proof. intros H s Hs. simpl. auto. Qed.

Lemma triple_bind {A B} (m : M A) (k : A -> M B) (R : A -> Prop)
    (R' : B -> Prop) :
  triple m R -> (forall a, R a -> triple (k a) R') -> triple (bind m k) R'.
Proof.
  intros Hm Hk s Hs. unfold bind. specialize (Hm s Hs).
  destruct (m s) as [[r s1] o1]. destruct Hm as [H1 [H2 H3]].
  destruct r as [a|].
  - specialize (Hk a H3 s1 H1).
    destruct (k a s1) as [[r2 s2] o2]. destruct Hk as [K1 [K2 K3]].
    split; [assumption|]. split; [|assumption].
    apply Forall_app. split; assumption.
  - auto.
Qed.

Lemma triple_ret_any {A} (a : A) : triple (ret a) (fun _ => True).
Proof. apply triple_ret. exact Logic.I. Qed.

Lemma triple_weaken {A} (m : M A) (R R' : A -> Prop) :
  triple m R -> (forall a, R a -> R' a) -> triple m R'.
Proof.
  intros Hm HR s Hs. specialize (Hm s Hs).
  destruct (m s) as [[r s1] o1]. destruct Hm as [H1 [H2 H3]].
  split; [assumption|]. split; [assumption|].
  destruct r; auto.
Qed.

Lemma triple_get : triple get I.
Proof. intros s Hs. simpl. auto. Qed.

Lemma triple_modify (f : state -> state) :
  (forall s, I s -> I (f s)) -> triple (modify f) (fun _ => True).
Proof. intros H s Hs. simpl. auto. Qed.

Lemma triple_emit (o : out) : Q o -> triple (emit o) (fun _ => True).
Proof. intros H s Hs. simpl. auto. Qed.

Lemma triple_throw {A} (R : A -> Prop) : triple (@throw A) R.
Proof. intros s Hs. simpl. auto. Qed.

Lemma triple_when (b : bool) (m : M unit) :
  (b = true -> triple m (fun _ => True)) -> triple (when b m) (fun _ => True).
Proof.
  intros H. destruct b; simpl.
  - apply H. reflexivity.
  - apply triple_ret_any.
Qed.

Lemma triple_forEach {A} (l : list A) (f : A -> M unit) :
  (forall x, In x l -> triple (f x) (fun _ => True)) ->
  triple (forEach l f) (fun _ => True).
Proof.
  induction l as [|x r IH]; intros H; simpl.
  - apply triple_ret_any.
  - eapply triple_bind.
    + apply H. left. reflexivity.
    + intros _ _. apply IH. intros y Hy. apply H. right. exact Hy.
Qed.

End Triples.

(** One step of a proof of a [triple], following the shape of the handler. *)
Ltac triple_step :=
  match goal with
  | |- triple _ _ (bind _ _) _ => eapply triple_bind; [|intros ? ?]
  | |- triple _ _ (ret _) _ => apply triple_ret_any
  | |- triple _ _ (when _ _) _ => apply triple_when; intros ?
  | |- triple _ _ (forEach _ _) _ => apply triple_forEach; intros ? ?
  | |- triple _ _ throw _ => apply triple_throw
  | |- triple _ _ get _ => apply triple_get
  | |- triple _ _ (match ?x with _ => _ end) _ => destruct x eqn:?
  end.

(** ** Captured lines are trimmed *)

Section CleanLines.

Lemma clean_map_get (id : cmdid) (m : list (cmdid * outbuf)) (o : outbuf) :
  Forall (fun kv => Forall clean_line (o_stdout (snd kv))) m ->
  map_get id m = Some o -> Forall clean_line (o_stdout o).
Proof.
  induction m as [|[k v] r IH]; simpl; intros HF H; [discriminate|].
  inversion HF; subst.
  destruct (cmdid_eqb k id); [inversion H; subst; assumption|auto].
Qed.

Lemma clean_map_set (id : cmdid) (v : outbuf) (m : list (cmdid * outbuf)) :
  Forall clean_line (o_stdout v) ->
  Forall (fun kv => Forall clean_line (o_stdout (snd kv))) m ->
  Forall (fun kv => Forall clean_line (o_stdout (snd kv))) (map_set id v m).
Proof.
  intros Hv. induction m as [|[k w] r IH]; simpl; intros HF.
  - constructor; [exact Hv|constructor].
  - inversion HF; subst.
    destruct (cmdid_eqb k id); constructor; auto.
Qed.

Lemma clean_map_delete (id : cmdid) (m : list (cmdid * outbuf)) :
  Forall (fun kv => Forall clean_line (o_stdout (snd kv))) m ->
  Forall (fun kv => Forall clean_line (o_stdout (snd kv))) (map_delete id m).
Proof.
  induction m as [|[k w] r IH]; simpl; intros HF; [constructor|].
  inversion HF; subst.
  destruct (cmdid_eqb k id); [assumption|constructor; auto].
Qed.

Lemma clean_captured (s : state) (id : cmdid) :
  lines_stored_clean s -> Forall clean_line (captured s id).
Proof.
  intros H. unfold captured.
  destruct (map_get id (commandOutputs s)) eqn:E; [|constructor].
  exact (clean_map_get _ _ _ H E).
Qed.

Local Abbreviation T := (triple lines_stored_clean clean_out).

Lemma clean_fullOutput (id : cmdid) :
  T (fullOutput id)
    (fun full => exists ls, full = join_nl ls /\ Forall clean_line ls).
Proof.
  intros s Hs. simpl. split; [exact Hs|]. split; [constructor|].
  exists (captured s id). split; [reflexivity|apply clean_captured, Hs].
Qed.

Lemma clean_pushStdout (id : cmdid) (l : jsstring) :
  clean_line l -> T (pushStdout id l) (fun _ => True).
Proof.
  intros Hl. apply triple_modify. intros s Hs.
  destruct (map_get id (commandOutputs s)) eqn:E; [|exact Hs].
  unfold lines_stored_clean. simpl.
  apply clean_map_set; [|exact Hs]. simpl.
  apply Forall_app. split; [|constructor; [exact Hl|constructor]].
  exact (clean_map_get _ _ _ Hs E).
Qed.

Lemma clean_pushStderr (id : cmdid) (l : jsstring) :
  T (pushStderr id l) (fun _ => True).
Proof.
  apply triple_modify. intros s Hs.
  destruct (map_get id (commandOutputs s)) eqn:E; [|exact Hs].
  unfold lines_stored_clean. simpl.
  apply clean_map_set; [|exact Hs]. simpl.
  exact (clean_map_get _ _ _ Hs E).
Qed.

Lemma clean_resolve (p : nat) (full : jsstring) :
  (exists ls, full = join_nl ls /\ Forall clean_line ls) ->
  clean_out (Resolve p {| exitCode := 0; output := full |}).
Proof. intros H. exact H. Qed.

(** How an assignment to the state keeps the invariant. *)
Ltac clean_inv :=
  match goal with
  | Hs : lines_stored_clean ?s |- lines_stored_clean _ =>
      first [ exact Hs
            | unfold lines_stored_clean; simpl;
              first [ constructor
                    | apply clean_map_delete; exact Hs
                    | apply clean_map_set;
                      [simpl; constructor|exact Hs] ] ]
  end.

(** A trimmed line that is not empty is clean. *)
Ltac clean_side :=
  match goal with
  | Hn : ~ In NL ?l, H : (truthy (trim ?l) && _)%bool = true
    |- clean_line (trim ?l) =>
      apply andb_prop in H; destruct H;
      apply trim_clean_line; assumption
  | Hn : ~ In NL ?l, H : truthy (trim ?l) = true |- clean_line (trim ?l) =>
      apply trim_clean_line; assumption
  end.

Ltac clean_run :=
  repeat first
    [ match goal with
      | |- triple _ _ (fullOutput _) _ => apply clean_fullOutput
      | |- triple _ _ (pushStderr _ _) _ => apply clean_pushStderr
      | |- triple _ _ (pushStdout _ _) _ => apply clean_pushStdout; clean_side
      | H : triple _ _ ?m _ |- triple _ _ ?m _ => exact H
      end
    | triple_step
    | apply triple_modify; intros ? ?; clean_inv
    | apply triple_emit;
      first [ exact Logic.I | apply clean_resolve; assumption
            | simpl; clean_side ]
    | progress unfold currentCommand, setCurrentCommand, fresh, setTimeout,
        clearTimeout, deleteOutput, settleConnect, welcome, closeRDESession,
        generateCommandId, Server.updateCurrent ].

Lemma clean_Main_processNextCommand (now : Z) :
  T (Main.processNextCommand now) (fun _ => True).
Proof. unfold Main.processNextCommand. clean_run. Qed.

Lemma clean_Main_stdoutLine (now : Z) (line : jsstring) :
  ~ In NL line -> T (Main.stdoutLine now line) (fun _ => True).
Proof.
  intros Hn. pose proof (clean_Main_processNextCommand now) as Hp.
  unfold Main.stdoutLine, Main.captureLine. clean_run.
Qed.

Lemma clean_Main_handle (now : Z) (ev : event) :
  T (Main.handle now ev) (fun _ => True).
Proof.
  pose proof (clean_Main_processNextCommand now) as Hp.
  destruct ev; unfold Main.handle.
  - unfold Main.connect, Main.createRDESession. clean_run.
  - unfold Main.disconnect. clean_run.
  - unfold Main.execute, Main.executeInRDESession. clean_run.
  - unfold Main.onStdout. clean_run.
    apply clean_Main_stdoutLine.
    pose proof (split_nl_no_nl text) as HF.
    rewrite Forall_forall in HF. auto.
  - unfold Main.onStderr. clean_run.
  - unfold Main.onExit. clean_run.
  - unfold Main.onError. clean_run.
  - unfold Main.onTimer, Main.runTimer, Main.hardTimeout, Main.earlyComplete,
      Main.connectTimeout.
    clean_run.
Qed.

Lemma clean_Main_drain : T Main.drain (fun _ => True).
Proof. unfold Main.drain, Main.connectContinue. clean_run. Qed.

Lemma clean_Main_step (s : state) (ev : Z * event) :
  lines_stored_clean s ->
  lines_stored_clean (fst (Main.step s ev)) /\
  Forall clean_out (snd (Main.step s ev)).
Proof.
  intros Hs. unfold Main.step.
  pose proof (clean_Main_handle (fst ev) (snd ev) s Hs) as H1.
  destruct (Main.handle (fst ev) (snd ev) s) as [[r s1] o1].
  destruct H1 as [H1 [H2 _]].
  pose proof (clean_Main_drain s1 H1) as H3.
  destruct (Main.drain s1) as [[r2 s2] o2].
  destruct H3 as [H3 [H4 _]].
  split; [exact H3|]. simpl.
  apply Forall_app. split; [exact H2|].
  apply Forall_app. split; [|exact H4].
  destruct r; repeat constructor.
Qed.

Lemma clean_Main_run (evs : list (Z * event)) (s : state) :
  lines_stored_clean s ->
  lines_stored_clean (fst (Main.run s evs)) /\
  Forall clean_out (snd (Main.run s evs)).
Proof.
  revert s. induction evs as [|ev r IH]; intros s Hs; simpl.
  - split; [exact Hs|constructor].
  - pose proof (clean_Main_step s ev Hs) as H1.
    destruct (Main.step s ev) as [s1 o1]. destruct H1 as [H1 H2].
    specialize (IH s1 H1).
    destruct (Main.run s1 r) as [s2 o2]. destruct IH as [H3 H4].
    split; [exact H3|]. apply Forall_app. split; assumption.
Qed.

Lemma clean_Server_completeCommandK (next : M unit) (ref : nat)
    (commandId : cmdid) (p : nat) :
  T next (fun _ => True) ->
  T (Server.completeCommandK next ref commandId p) (fun _ => True).
Proof. intros Hn. unfold Server.completeCommandK. clean_run. Qed.

Lemma clean_Server_checkOutputActivityK (next : M unit) (now : Z) (ref : nat)
    (commandId : cmdid) (p : nat) :
  T next (fun _ => True) ->
  T (Server.checkOutputActivityK next now ref commandId p) (fun _ => True).
Proof.
  intros Hn.
  pose proof (clean_Server_completeCommandK next ref commandId p Hn) as Hc.
  unfold Server.checkOutputActivityK. clean_run.
Qed.

Lemma clean_Server_processNextCommandN (fuel : nat) (now : Z) :
  T (Server.processNextCommandN fuel now) (fun _ => True).
Proof.
  induction fuel as [|fuel IH]; simpl; [apply triple_ret_any|].
  unfold Server.processNextBody.
  clean_run.
  apply clean_Server_checkOutputActivityK, IH.
Qed.

Lemma clean_Server_processNextCommand (now : Z) :
  T (Server.processNextCommand now) (fun _ => True).
Proof.
  intros s Hs. unfold Server.processNextCommand.
  apply clean_Server_processNextCommandN. exact Hs.
Qed.

Lemma clean_Server_stdoutLine (now : Z) (line : jsstring) :
  ~ In NL line -> T (Server.stdoutLine now line) (fun _ => True).
Proof.
  intros Hn. pose proof (clean_Server_processNextCommand now) as Hp.
  unfold Server.stdoutLine. clean_run.
Qed.

Lemma clean_Server_handle (now : Z) (ev : event) :
  T (Server.handle now ev) (fun _ => True).
Proof.
  pose proof (clean_Server_processNextCommand now) as Hp.
  destruct ev; unfold Server.handle.
  - unfold Server.connect, Server.createRDESession. clean_run.
  - unfold Server.disconnect. clean_run.
  - unfold Server.execute, Server.executeInRDESession. clean_run.
  - unfold Server.onStdout. clean_run.
    apply clean_Server_stdoutLine.
    pose proof (split_nl_no_nl text) as HF.
    rewrite Forall_forall in HF. auto.
  - unfold Server.onStderr. clean_run.
  - unfold Server.onExit, Server.resolvePendingConnection. clean_run.
  - unfold Server.onError, Server.resolvePendingConnection. clean_run.
  - unfold Server.onTimer, Server.runTimer, Server.hardTimeout,
      Server.earlyComplete, Server.connectTimeout, Server.checkOutputActivity,
      Server.completeCommand.
    clean_run;
      first [ apply clean_Server_completeCommandK; exact Hp
            | apply clean_Server_checkOutputActivityK; exact Hp ].
Qed.

Lemma clean_Server_drain : T Server.drain (fun _ => True).
Proof. unfold Server.drain, Server.connectContinue. clean_run. Qed.

Lemma clean_Server_step (s : state) (ev : Z * event) :
  lines_stored_clean s ->
  lines_stored_clean (fst (Server.step s ev)) /\
  Forall clean_out (snd (Server.step s ev)).
Proof.
  intros Hs. unfold Server.step.
  pose proof (clean_Server_handle (fst ev) (snd ev) s Hs) as H1.
  destruct (Server.handle (fst ev) (snd ev) s) as [[r s1] o1].
  destruct H1 as [H1 [H2 _]].
  pose proof (clean_Server_drain s1 H1) as H3.
  destruct (Server.drain s1) as [[r2 s2] o2].
  destruct H3 as [H3 [H4 _]].
  split; [exact H3|]. simpl.
  apply Forall_app. split; [exact H2|].
  apply Forall_app. split; [|exact H4].
  destruct r; repeat constructor.
Qed.

Lemma clean_Server_run (evs : list (Z * event)) (s : state) :
  lines_stored_clean s ->
  lines_stored_clean (fst (Server.run s evs)) /\
  Forall clean_out (snd (Server.run s evs)).
Proof.
  revert s. induction evs as [|ev r IH]; intros s Hs; simpl.
  - split; [exact Hs|constructor].
  - pose proof (clean_Server_step s ev Hs) as H1.
    destruct (Server.step s ev) as [s1 o1]. destruct H1 as [H1 H2].
    specialize (IH s1 H1).
    destruct (Server.run s1 r) as [s2 o2]. destruct IH as [H3 H4].
    split; [exact H3|]. apply Forall_app. split; assumption.
Qed.

Lemma In_removelast {A} (x : A) (l : list A) : In x (removelast l) -> In x l.
Proof.
  induction l as [|y r IH]; simpl; [tauto|].
  destruct r as [|z r']; [intros []|].
  intros [H|H]; [left; exact H|right; apply IH, H].
Qed.

Lemma clean_forLines (lines : list jsstring) (cf : option jsstring) :
  Forall (fun l => ~ In NL l) lines ->
  Forall (fun ll => clean_line (LogTail.line ll))
         (snd (LogTail.forLines cf lines)).
Proof.
  revert cf. induction lines as [|l r IH]; intros cf HF; simpl.
  - constructor.
  - inversion HF as [|? ? Hl Hr]; subst.
    unfold LogTail.onLine at 1.
    destruct (truthy (trim l)) eqn:Et; simpl.
    + destruct (fileHeaderMatch (trim l)) as [f|].
      * specialize (IH (Some f) Hr).
        destruct (LogTail.forLines (Some f) r). exact IH.
      * specialize (IH cf Hr).
        destruct (LogTail.forLines cf r). simpl.
        constructor; [|exact IH]. simpl. apply trim_clean_line; assumption.
    + specialize (IH cf Hr). destruct (LogTail.forLines cf r). exact IH.
Qed.

Lemma clean_onData (st : LogTail.stream) (text : jsstring) :
  Forall (fun ll => clean_line (LogTail.line ll))
         (snd (LogTail.onData st text)).
Proof.
  unfold LogTail.onData.
  pose proof (clean_forLines
                (removelast (split_nl (LogTail.buffer st ++ text)))
                (LogTail.currentFile st)) as H.
  destruct (LogTail.forLines (LogTail.currentFile st)
              (removelast (split_nl (LogTail.buffer st ++ text)))).
  apply H. rewrite Forall_forall. intros x Hx.
  pose proof (split_nl_no_nl (LogTail.buffer st ++ text)) as HF.
  rewrite Forall_forall in HF. apply HF, In_removelast, Hx.
Qed.

Lemma clean_outs_spec (outs : list out) :
  Forall clean_out outs ->
  (forall id text, In (CommandOutput id Stdout text) outs -> clean_line text)
  /\
  (forall p r, In (Resolve p r) outs ->
     output r = [] \/ Forall clean_line (split_nl (output r))).
Proof.
  intros HF. rewrite Forall_forall in HF. split.
  - intros id text Hin. exact (HF _ Hin).
  - intros p r Hin. destruct (HF _ Hin) as [ls [E Hls]].
    destruct ls as [|l ls'].
    + left. exact E.
    + right. rewrite E, split_join; [exact Hls|discriminate|].
      rewrite Forall_forall in *. intros x Hx. exact (proj2 (Hls x Hx)).
Qed.

(** C10: every line captured for a command (main.js and server.js) and every
    line forwarded on a log stream (main.js) is the trimmed form of a
    received line, and is never empty: it starts and ends with a character
    that is not white space; so every line of a delivered output is such a
    line, whatever the session received; a blank line of a log stream is
    forwarded nowhere. *)
Theorem C10_captured_lines_are_trimmed :
  (forall evs : list (Z * event),
      (forall id text,
          In (CommandOutput id Stdout text) (snd (Main.run init evs)) ->
          clean_line text) /\
      (forall p r,
          In (Resolve p r) (snd (Main.run init evs)) ->
          output r = [] \/ Forall clean_line (split_nl (output r))))
  /\
  (forall evs : list (Z * event),
      (forall id text,
          In (CommandOutput id Stdout text) (snd (Server.run init evs)) ->
          clean_line text) /\
      (forall p r,
          In (Resolve p r) (snd (Server.run init evs)) ->
          output r = [] \/ Forall clean_line (split_nl (output r))))
  /\
  (forall (st : LogTail.stream) (text : jsstring),
      Forall (fun ll => clean_line (LogTail.line ll))
             (snd (LogTail.onData st text)))
  /\
  (forall (cf : option jsstring) (l : jsstring),
      trim l = [] -> LogTail.onLine cf l = (cf, [])).
Proof.
  assert (Hi : lines_stored_clean init) by constructor.
  split; [|split; [|split]].
  - intros evs. apply clean_outs_spec, clean_Main_run, Hi.
  - intros evs. apply clean_outs_spec, clean_Server_run, Hi.
  - exact clean_onData.
  - intros cf l H. unfold LogTail.onLine. rewrite H. reflexivity.
Qed.

End CleanLines.

(** ** Running handlers *)

Lemma bind_ret {A B} (a : A) (k : A -> M B) (s : state) :
  bind (ret a) k s = k a s.
Proof. unfold bind, ret. destruct (k a s) as [[? ?] ?]. reflexivity. Qed.

Lemma bind_get {B} (k : state -> M B) (s : state) : bind get k s = k s s.
Proof. unfold bind, get. destruct (k s s) as [[? ?] ?]. reflexivity. Qed.

Lemma bind_modify {B} (f : state -> state) (k : unit -> M B) (s : state) :
  bind (modify f) k s = k tt (f s).
Proof.
  unfold bind, modify. destruct (k tt (f s)) as [[? ?] ?]. reflexivity.
Qed.

Lemma bind_emit {B} (o : out) (k : unit -> M B) (s : state) :
  bind (emit o) k s = prepend [o] (k tt s).
Proof.
  unfold bind, emit, prepend. destruct (k tt s) as [[? ?] ?]. reflexivity.
Qed.

Lemma bind_throw {A B} (k : A -> M B) (s : state) :
  bind throw k s = (Throw, s, []).
Proof. reflexivity. Qed.

Lemma bind_bind {A B C} (m : M A) (k : A -> M B) (k' : B -> M C)
    (s : state) :
  bind (bind m k) k' s = bind m (fun a => bind (k a) k') s.
Proof.
  unfold bind. destruct (m s) as [[[a|] s1] o1]; [|reflexivity].
  destruct (k a s1) as [[[b|] s2] o2]; [|reflexivity].
  destruct (k' b s2) as [[r s3] o3]. rewrite app_assoc. reflexivity.
Qed.

Lemma bind_when_false {B} (m : M unit) (k : unit -> M B) (s : state) :
  bind (when false m) k s = k tt s.
Proof. apply bind_ret. Qed.

Lemma forEach_skip {A} (l : list A) (f : A -> M unit) (s : state) :
  (forall x s, f x s = (Ok tt, s, [])) -> forEach l f s = (Ok tt, s, []).
Proof.
  intros H. induction l as [|x r IH]; [reflexivity|].
  simpl. unfold bind. rewrite H, IH. reflexivity.
Qed.

Lemma bind_forEach_skip {A B} (l : list A) (f : A -> M unit)
    (k : unit -> M B) (s : state) :
  (forall x s, f x s = (Ok tt, s, [])) -> bind (forEach l f) k s = k tt s.
Proof.
  intros H. unfold bind. rewrite forEach_skip by exact H.
  destruct (k tt s) as [[? ?] ?]. reflexivity.
Qed.

Lemma prepend_prepend {A} (o1 o2 : list out)
    (x : outcome A * state * list out) :
  prepend o1 (prepend o2 x) = prepend (o1 ++ o2) x.
Proof. unfold prepend. simpl. rewrite app_assoc. reflexivity. Qed.

Lemma prepend_nil {A} (x : outcome A * state * list out) : prepend [] x = x.
Proof. destruct x as [[? ?] ?]. reflexivity. Qed.

Lemma delivered_app (a b : list out) :
  delivered (a ++ b) = delivered a ++ delivered b.
Proof.
  induction a as [|o r IH]; [reflexivity|].
  destruct o; simpl; rewrite ?IH; reflexivity.
Qed.

Lemma delivered_no_resolve (o : list out) :
  Forall no_resolve o -> delivered o = [].
Proof.
  induction 1 as [|x r Hx _ IH]; [reflexivity|].
  destruct x; simpl in *; try exact IH. contradiction.
Qed.

Lemma delivered_In (o : list out) (p : nat) (r : result) :
  In (Resolve p r) o <-> In (p, r) (delivered o).
Proof.
  induction o as [|x l IH]; [tauto|].
  destruct x; simpl; rewrite <- ?IH;
    try (split; [intros [H|H]; [discriminate|exact H]|tauto]).
  split; (intros [H|H]; [left; congruence|right; exact H]).
Qed.

Lemma cmdid_eqb_eq (a b : cmdid) : cmdid_eqb a b = true <-> a = b.
Proof.
  unfold cmdid_eqb. rewrite andb_true_iff, Z.eqb_eq, Nat.eqb_eq.
  destruct a, b; simpl. split.
  - intros [-> ->]. reflexivity.
  - intros H. inversion H. auto.
Qed.

Lemma cmdid_eqb_refl (a : cmdid) : cmdid_eqb a a = true.
Proof. apply cmdid_eqb_eq. reflexivity. Qed.

(** Unfolding the steps of a handler at a state. *)
Ltac exec :=
  repeat first
    [ rewrite bind_bind | rewrite bind_ret | rewrite bind_get
    | rewrite bind_modify | rewrite bind_emit | rewrite bind_throw
    | rewrite bind_when_false | rewrite prepend_prepend
    | progress unfold currentCommand, setCurrentCommand, fresh, setTimeout,
        clearTimeout, deleteOutput, fullOutput, settleConnect,
        Server.updateCurrent
    | progress cbn [when] ].

(** ** The completion triggers of main.js *)

Lemma Main_captureLine_prompt (now : Z) (line : jsstring) (cmdId : cmdid)
    (s : state) :
  Main.captureLine now line true cmdId s = (Ok tt, s, []).
Proof. unfold Main.captureLine. rewrite andb_false_r. reflexivity. Qed.

Lemma Main_prompt (now : Z) (line : jsstring) (s : state) (t : tracker) :
  matches_prompt line = true -> active s = Some t ->
  Main.stdoutLine now line s =
  prepend [result_of s t]
          (Main.processNextCommand now (completed [t_timeout t] t s)).
Proof.
  intros Hp Ha. unfold active in Ha.
  destruct (rdeProcess s) as [pr|] eqn:Epr; [|discriminate].
  unfold Main.stdoutLine. rewrite Hp.
  exec. rewrite bind_forEach_skip by apply Main_captureLine_prompt.
  exec. rewrite Epr. exec. rewrite Ha.
  unfold result_of, completed. cbn [fold_left].
  destruct (t_timeout t); exec;
    cbn [rdeProcess set_timers set_commandOutputs]; rewrite Epr; exec;
    unfold set_isExecutingCommand, set_rdeProcess, set_commandOutputs,
      set_timers; cbn; rewrite ?Epr; destruct s; reflexivity.
Qed.

Lemma Main_early (now : Z) (s : state) (t : tracker) :
  active s = Some t ->
  Main.earlyComplete now (t_id t) s =
  prepend [result_of s t]
          (Main.processNextCommand now (completed [] t s)).
Proof.
  intros Ha. unfold active in Ha.
  destruct (rdeProcess s) as [pr|] eqn:Epr; [|discriminate].
  unfold Main.earlyComplete. exec. rewrite Epr. exec. rewrite Ha.
  rewrite cmdid_eqb_refl. exec.
  cbn [rdeProcess set_commandOutputs]. rewrite Epr. exec.
  unfold result_of, completed, set_isExecutingCommand, set_rdeProcess,
    set_commandOutputs.
  cbn. rewrite ?Epr. destruct s; reflexivity.
Qed.

Lemma Main_hard (now : Z) (s : state) (t : tracker) :
  active s = Some t ->
  Main.hardTimeout now (t_ref t) (t_id t) (t_resolve t) s =
  prepend [result_of s t]
          (Main.processNextCommand now (completed [] t s)).
Proof.
  intros Ha. unfold active in Ha.
  destruct (rdeProcess s) as [pr|] eqn:Epr; [|discriminate].
  unfold Main.hardTimeout. exec. rewrite Epr. exec. rewrite Ha.
  rewrite Nat.eqb_refl. exec.
  cbn [rdeProcess set_commandOutputs set_isExecutingCommand]. rewrite Epr.
  exec.
  unfold result_of, completed, set_isExecutingCommand, set_rdeProcess,
    set_commandOutputs.
  cbn. rewrite ?Epr. destruct s; reflexivity.
Qed.

(** ** The completion triggers of server.js *)

Lemma map_delete_absent (id : cmdid) (m : list (cmdid * outbuf)) :
  map_get id m = None -> map_delete id m = m.
Proof.
  induction m as [|[k v] r IH]; simpl; [reflexivity|].
  destruct (cmdid_eqb k id); [discriminate|].
  intros H. rewrite IH by exact H. reflexivity.
Qed.

Lemma map_delete_set_absent (id : cmdid) (v : outbuf)
    (m : list (cmdid * outbuf)) :
  map_get id m = None -> map_delete id (map_set id v m) = m.
Proof.
  induction m as [|[k w] r IH]; simpl.
  - rewrite cmdid_eqb_refl. reflexivity.
  - destruct (cmdid_eqb k id) eqn:E; [discriminate|].
    intros H. simpl. rewrite E, IH by exact H. reflexivity.
Qed.

Lemma map_get_set_same (id : cmdid) (v : outbuf) (m : list (cmdid * outbuf)) :
  map_get id (map_set id v m) = Some v.
Proof.
  induction m as [|[k w] r IH]; simpl.
  - rewrite cmdid_eqb_refl. reflexivity.
  - destruct (cmdid_eqb k id) eqn:E; simpl; rewrite E; [reflexivity|exact IH].
Qed.

Lemma Server_prompt (now : Z) (line : jsstring) (s : state) (t : tracker) :
  Server.isPrompt line = true -> active s = Some t ->
  Server.stdoutLine now line s =
  prepend [result_of s t]
    (Server.processNextCommand now
       (completed [t_timeout t; t_outputTimeout t] t s)).
Proof.
  intros Hp Ha. unfold active in Ha.
  destruct (rdeProcess s) as [pr|] eqn:Epr; [|discriminate].
  unfold Server.stdoutLine. rewrite Hp. cbn [negb].
  exec. rewrite Epr. exec. rewrite Ha. exec.
  assert (Hw : forall b, when b (ret tt) = ret tt) by (intros []; reflexivity).
  rewrite Hw. exec.
  unfold result_of, completed, captured. cbn [fold_left].
  destruct (map_get (t_id t) (commandOutputs s)) as [o|] eqn:Eg; exec;
    cbn [rdeProcess set_commandOutputs commandOutputs]; rewrite Epr; exec;
    rewrite Ha; exec; rewrite ?map_get_set_same, ?Eg;
    cbn [rdeProcess set_commandOutputs set_isExecutingCommand]; rewrite Epr;
    exec.
  - destruct (t_timeout t), (t_outputTimeout t); exec;
    unfold set_isExecutingCommand, set_rdeProcess, set_commandOutputs,
      set_timers; cbn; rewrite ?Epr; destruct s; reflexivity.
  - cbn [commandOutputs set_commandOutputs].
    rewrite map_get_set_same, (map_delete_set_absent _ _ _ Eg).
    rewrite (map_delete_absent _ _ Eg).
    destruct (t_timeout t), (t_outputTimeout t); exec;
    unfold set_isExecutingCommand, set_rdeProcess, set_commandOutputs,
      set_timers; cbn; rewrite ?Epr; destruct s; reflexivity.
Qed.

Ltac finish_completed Epr s :=
  unfold result_of, completed, set_isExecutingCommand, set_rdeProcess,
    set_commandOutputs, set_timers;
  cbn; rewrite ?Epr; destruct s; reflexivity.

Lemma Server_complete (now : Z) (s : state) (t : tracker) :
  active s = Some t ->
  Server.completeCommand now (t_ref t) (t_id t) (t_resolve t) s =
  prepend [result_of s t]
    (Server.processNextCommand now
       (completed [t_timeout t; t_outputTimeout t] t s)).
Proof.
  intros Ha. unfold active in Ha.
  destruct (rdeProcess s) as [pr|] eqn:Epr; [|discriminate].
  unfold Server.completeCommand, Server.completeCommandK.
  exec. rewrite Epr. exec. rewrite Ha, Nat.eqb_refl. exec.
  cbn [rdeProcess set_commandOutputs set_isExecutingCommand]. rewrite Epr.
  exec.
  destruct (t_timeout t), (t_outputTimeout t); exec;
    finish_completed Epr s.
Qed.

Lemma Server_hard (now : Z) (s : state) (t : tracker) :
  active s = Some t ->
  Server.hardTimeout now (t_ref t) (t_id t) (t_resolve t) s =
  prepend [result_of s t]
    (Server.processNextCommand now
       (completed [t_timeout t; t_outputTimeout t] t s)).
Proof.
  intros Ha. rewrite <- (Server_complete now s t Ha).
  unfold active in Ha.
  destruct (rdeProcess s) as [pr|] eqn:Epr; [|discriminate].
  unfold Server.hardTimeout. exec. rewrite Epr. exec.
  rewrite Ha, Nat.eqb_refl. reflexivity.
Qed.

Lemma Server_early (now : Z) (s : state) (t : tracker) :
  active s = Some t ->
  Server.earlyComplete now (t_id t) (t_resolve t) (t_timeout t) s =
  prepend [result_of s t]
    (Server.processNextCommand now (completed [t_timeout t] t s)).
Proof.
  intros Ha. unfold active in Ha.
  destruct (rdeProcess s) as [pr|] eqn:Epr; [|discriminate].
  unfold Server.earlyComplete. exec. rewrite Epr. exec.
  rewrite Ha, cmdid_eqb_refl. exec.
  cbn [rdeProcess set_commandOutputs set_isExecutingCommand]. rewrite Epr.
  exec.
  destruct (t_timeout t); exec; finish_completed Epr s.
Qed.

(** The inactivity check, run for the Active command: after a quiet second
    with something captured it completes the command, otherwise it sets
    itself up again 200 ms later. *)
Lemma Server_activity (now : Z) (s : state) (t : tracker) :
  active s = Some t ->
  Server.checkOutputActivity now (t_ref t) (t_id t) (t_resolve t) s =
  if ((1000 <=? now - t_lastOutputTime t)%Z
      && (0 <? List.length (captured s (t_id t)))%nat)%bool
  then Server.completeCommand now (t_ref t) (t_id t) (t_resolve t) s
  else
    (Ok tt,
     set_rdeProcess
       (match rdeProcess s with
        | Some p =>
            Some {| p_pid := p_pid p;
                    p_currentCommand :=
                      Some (Server.set_outputTimeout (Some (nextId s)) t) |}
        | None => None
        end)
       (set_timers
          (timers s ++
           [{| tm_id := nextId s; tm_due := now + 200;
               tm_cb := OutputActivity (t_ref t) (t_id t) (t_resolve t) |}])
          (set_nextId (S (nextId s)) s)),
     []).
Proof.
  intros Ha. unfold active in Ha.
  destruct (rdeProcess s) as [pr|] eqn:Epr; [|discriminate].
  unfold Server.checkOutputActivity, Server.checkOutputActivityK.
  exec. rewrite Epr. exec. rewrite Ha, Nat.eqb_refl. exec.
  unfold captured.
  replace (match map_get (t_id t) (commandOutputs s) with
           | Some o => (0 <? List.length (o_stdout o))%nat
           | None => false
           end)
    with (0 <? List.length match map_get (t_id t) (commandOutputs s) with
                           | Some o => o_stdout o
                           | None => []
                           end)%nat
    by (destruct (map_get (t_id t) (commandOutputs s)); reflexivity).
  destruct ((1000 <=? now - t_lastOutputTime t)%Z &&
            (0 <? List.length match map_get (t_id t) (commandOutputs s) with
                              | Some o => o_stdout o
                              | None => []
                              end)%nat)%bool; [reflexivity|].
  exec. cbn [rdeProcess set_timers set_nextId]. rewrite Epr. exec.
  rewrite Ha. exec.
  cbn [rdeProcess set_timers set_nextId]. rewrite Epr. exec.
  unfold modify. reflexivity.
Qed.

(** ** Which handlers deliver results *)

Ltac triple_run inv_tac emit_tac :=
  repeat first
    [ match goal with
      | H : triple _ _ ?m _ |- triple _ _ ?m _ => exact H
      | H : false = true |- _ => discriminate H
      end
    | triple_step
    | apply triple_modify; intros ? ?; inv_tac
    | apply triple_emit; emit_tac
    | progress unfold currentCommand, setCurrentCommand, fresh, setTimeout,
        clearTimeout, deleteOutput, fullOutput, pushStdout, pushStderr,
        settleConnect, welcome, closeRDESession, generateCommandId,
        Server.updateCurrent ].

Ltac quiet_run := triple_run ltac:(exact Logic.I) ltac:(exact Logic.I).

Lemma triple_outs {A} (Q : out -> Prop) (m : M A) (R : A -> Prop) :
  triple (fun _ => True) Q m R -> forall s, Forall Q (snd (m s)).
Proof.
  intros H s. specialize (H s Logic.I).
  destruct (m s) as [[r s1] o]. tauto.
Qed.

Lemma outs_bind {A B} (Q : out -> Prop) (m : M A) (k : A -> M B)
    (s : state) :
  Forall Q (snd (m s)) -> (forall a s', Forall Q (snd (k a s'))) ->
  Forall Q (snd (bind m k s)).
Proof.
  intros Hm Hk. unfold bind. destruct (m s) as [[[a|] s1] o1]; simpl in *.
  - specialize (Hk a s1). destruct (k a s1) as [[r s2] o2]. simpl in *.
    apply Forall_app. split; assumption.
  - exact Hm.
Qed.

Lemma quiet_Main_processNextCommand (now : Z) :
  triple (fun _ => True) no_resolve (Main.processNextCommand now)
         (fun _ => True).
Proof. unfold Main.processNextCommand. quiet_run. Qed.

(** Right after [processNextCommand] has created the entry of a command
    nothing is captured under its id, so the inactivity check it runs
    cannot complete anything. *)
Lemma quiet_Server_check (next : M unit) (now : Z) (ref : nat) (id : cmdid)
    (p : nat) (s : state) :
  captured s id = [] ->
  Forall no_resolve (snd (Server.checkOutputActivityK next now ref id p s)).
Proof.
  intros Hc. unfold Server.checkOutputActivityK. exec.
  destruct (rdeProcess s) as [pr|] eqn:Epr; exec; [|constructor].
  destruct (p_currentCommand pr) as [t|] eqn:Ec; [|constructor].
  destruct (t_ref t =? ref)%nat; exec; [|constructor].
  replace (match map_get id (commandOutputs s) with
           | Some o => (0 <? List.length (o_stdout o))%nat
           | None => false
           end) with false.
  2:{ unfold captured in Hc.
      destruct (map_get id (commandOutputs s)); [rewrite Hc|]; reflexivity. }
  rewrite andb_false_r. exec.
  cbn [rdeProcess set_timers set_nextId]. rewrite Epr. exec.
  destruct (p_currentCommand pr); exec;
    cbn [rdeProcess set_timers set_nextId]; rewrite ?Epr; exec; constructor.
Qed.

Lemma quiet_Server_processNextBody (self : M unit) (now : Z) (s : state) :
  Forall no_resolve (snd (Server.processNextBody self now s)).
Proof.
  unfold Server.processNextBody. exec.
  destruct (commandQueue s) as [|q rest]; [constructor|].
  destruct (isExecutingCommand s); [constructor|].
  exec. apply outs_bind.
  - apply quiet_Server_check. unfold captured. cbn.
    rewrite map_get_set_same. reflexivity.
  - intros _ s'. revert s'. eapply triple_outs. quiet_run.
Qed.

Lemma quiet_Server_processNextCommand (now : Z) :
  triple (fun _ => True) no_resolve (Server.processNextCommand now)
         (fun _ => True).
Proof.
  intros s _. unfold Server.processNextCommand.
  cbn [Server.processNextCommandN].
  pose proof (quiet_Server_processNextBody
                (Server.processNextCommandN (List.length (commandQueue s)) now)
                now s) as H.
  destruct (Server.processNextBody _ now s) as [[r s1] o].
  split; [exact Logic.I|]. split; [exact H|]. destruct r; exact Logic.I.
Qed.

Lemma delivered_prepend_quiet {A} (o : out) (x : outcome A * state * list out) :
  Forall no_resolve (snd x) ->
  delivered (snd (prepend [o] x)) = delivered [o].
Proof.
  intros H. unfold prepend. cbn [snd]. rewrite delivered_app.
  rewrite (delivered_no_resolve _ H). apply app_nil_r.
Qed.

Lemma quiet_Main_content (now : Z) (line : jsstring) :
  matches_prompt line = false ->
  triple (fun _ => True) no_resolve (Main.stdoutLine now line)
         (fun _ => True).
Proof.
  intros Hp. unfold Main.stdoutLine, Main.captureLine. rewrite Hp. quiet_run.
Qed.

Lemma quiet_Server_content (now : Z) (line : jsstring) :
  Server.isPrompt line = false ->
  triple (fun _ => True) no_resolve (Server.stdoutLine now line)
         (fun _ => True).
Proof. intros Hp. unfold Server.stdoutLine. rewrite Hp. quiet_run. Qed.

Lemma In_prepend_quiet {A} (o : out) (x : outcome A * state * list out)
    (p : nat) (r : result) :
  Forall no_resolve (snd x) ->
  In (Resolve p r) (snd (prepend [o] x)) -> Resolve p r = o.
Proof.
  intros Hq Hin. unfold prepend in Hin. cbn [snd app] in Hin.
  destruct Hin as [H|H]; [symmetry; exact H|].
  rewrite Forall_forall in Hq. destruct (Hq _ H).
Qed.

(** A line handled by main.js delivers a result only if it is a prompt line
    and a command is Active, and then the result of that command. *)
Lemma Main_line_delivers (now : Z) (line : jsstring) (s : state) (p : nat)
    (r : result) :
  In (Resolve p r) (snd (Main.stdoutLine now line s)) ->
  matches_prompt line = true /\
  exists t, active s = Some t /\ Resolve p r = result_of s t.
Proof.
  intros Hin. destruct (matches_prompt line) eqn:Hp.
  - split; [reflexivity|]. destruct (active s) as [t|] eqn:Ha.
    + exists t. split; [reflexivity|].
      rewrite (Main_prompt now line s t Hp Ha) in Hin.
      apply In_prepend_quiet in Hin; [exact Hin|].
      apply (triple_outs _ _ _ (quiet_Main_processNextCommand now)).
    + exfalso. revert Hin. unfold Main.stdoutLine. rewrite Hp. exec.
      rewrite bind_forEach_skip by apply Main_captureLine_prompt. exec.
      unfold active in Ha. destruct (rdeProcess s) as [pr|]; exec.
      * rewrite Ha. intros [].
      * intros [].
  - exfalso.
    pose proof (triple_outs _ _ _ (quiet_Main_content now line Hp) s) as Hq.
    rewrite Forall_forall in Hq. exact (Hq _ Hin).
Qed.

Lemma Server_line_delivers (now : Z) (line : jsstring) (s : state) (p : nat)
    (r : result) :
  In (Resolve p r) (snd (Server.stdoutLine now line s)) ->
  Server.isPrompt line = true /\
  exists t, active s = Some t /\ Resolve p r = result_of s t.
Proof.
  intros Hin. destruct (Server.isPrompt line) eqn:Hp.
  - split; [reflexivity|]. destruct (active s) as [t|] eqn:Ha.
    + exists t. split; [reflexivity|].
      rewrite (Server_prompt now line s t Hp Ha) in Hin.
      apply In_prepend_quiet in Hin; [exact Hin|].
      apply (triple_outs _ _ _ (quiet_Server_processNextCommand now)).
    + exfalso. revert Hin. unfold Server.stdoutLine. rewrite Hp. exec.
      unfold active in Ha. destruct (rdeProcess s) as [pr|] eqn:Epr; exec.
      * rewrite Ha. exec. rewrite Epr. exec. rewrite Ha. intros [].
      * intros [].
  - exfalso.
    pose proof (triple_outs _ _ _ (quiet_Server_content now line Hp) s) as Hq.
    rewrite Forall_forall in Hq. exact (Hq _ Hin).
Qed.

(** A timer of main.js delivers at most one result: exit code 0 and the
    join of the lines captured under the id its closure holds. *)
Lemma Main_timer_delivers (now : Z) (cb : timer) (s : state) :
  delivered (snd (Main.runTimer now cb s)) = [] \/
  exists p id,
    delivered (snd (Main.runTimer now cb s)) =
    [(p, {| exitCode := 0; output := join_nl (captured s id) |})].
Proof.
  pose proof (triple_outs _ _ _ (quiet_Main_processNextCommand now)) as Hq.
  destruct cb as [ref id p|id|id p tm|ref id p|k]; cbn [Main.runTimer];
    try (left; reflexivity).
  - unfold Main.hardTimeout. exec.
    destruct (rdeProcess s) as [pr|] eqn:Epr; exec; [|left; reflexivity].
    destruct (p_currentCommand pr) as [t|]; [|left; reflexivity].
    destruct (t_ref t =? ref)%nat; exec; [|left; reflexivity].
    cbn [rdeProcess set_commandOutputs set_isExecutingCommand].
    rewrite Epr. exec.
    right. exists p, id. rewrite delivered_prepend_quiet by apply Hq.
    reflexivity.
  - unfold Main.earlyComplete. exec.
    destruct (rdeProcess s) as [pr|] eqn:Epr; exec; [|left; reflexivity].
    destruct (p_currentCommand pr) as [t|]; [|left; reflexivity].
    destruct (cmdid_eqb (t_id t) id); exec; [|left; reflexivity].
    cbn [rdeProcess set_commandOutputs set_isExecutingCommand].
    rewrite Epr. exec.
    right. exists (t_resolve t), id.
    rewrite delivered_prepend_quiet by apply Hq. reflexivity.
  - left. apply delivered_no_resolve. revert s.
    eapply triple_outs. unfold Main.connectTimeout. quiet_run.
Qed.

Lemma Server_completeCommandK_delivers (now : Z) (ref : nat) (id : cmdid)
    (p : nat) (s : state) :
  delivered (snd (Server.completeCommandK (Server.processNextCommand now)
                    ref id p s)) = [] \/
  delivered (snd (Server.completeCommandK (Server.processNextCommand now)
                    ref id p s)) =
  [(p, {| exitCode := 0; output := join_nl (captured s id) |})].
Proof.
  pose proof (triple_outs _ _ _ (quiet_Server_processNextCommand now)) as Hq.
  unfold Server.completeCommandK. exec.
  destruct (rdeProcess s) as [pr|] eqn:Epr; exec; [|left; reflexivity].
  destruct (p_currentCommand pr) as [t|]; [|left; reflexivity].
  destruct (t_ref t =? ref)%nat; exec; [|left; reflexivity].
  cbn [rdeProcess set_commandOutputs set_isExecutingCommand].
  rewrite Epr. exec.
  right.
  destruct (t_timeout t), (t_outputTimeout t); exec;
    rewrite delivered_prepend_quiet by apply Hq; reflexivity.
Qed.

(** The same for the timers of server.js. *)
Lemma Server_timer_delivers (now : Z) (cb : timer) (s : state) :
  delivered (snd (Server.runTimer now cb s)) = [] \/
  exists p id,
    delivered (snd (Server.runTimer now cb s)) =
    [(p, {| exitCode := 0; output := join_nl (captured s id) |})].
Proof.
  pose proof (triple_outs _ _ _ (quiet_Server_processNextCommand now)) as Hq.
  destruct cb as [ref id p|id|id p tm|ref id p|k]; cbn [Server.runTimer];
    try (left; reflexivity).
  - unfold Server.hardTimeout. exec.
    destruct (rdeProcess s) as [pr|] eqn:Epr; exec; [|left; reflexivity].
    destruct (p_currentCommand pr) as [t|]; [|left; reflexivity].
    destruct (t_ref t =? ref)%nat; cbn [when]; [|left; reflexivity].
    destruct (Server_completeCommandK_delivers now ref id p s) as [H|H].
    + left. exact H.
    + right. exists p, id. exact H.
  - unfold Server.earlyComplete. exec.
    destruct (rdeProcess s) as [pr|] eqn:Epr; exec; [|left; reflexivity].
    destruct (p_currentCommand pr) as [t|]; [|left; reflexivity].
    destruct (cmdid_eqb (t_id t) id); exec; [|left; reflexivity].
    cbn [rdeProcess set_commandOutputs set_isExecutingCommand].
    rewrite Epr. exec.
    right. exists p, id.
    destruct tm; exec; rewrite delivered_prepend_quiet by apply Hq;
      reflexivity.
  - unfold Server.checkOutputActivity, Server.checkOutputActivityK. exec.
    destruct (rdeProcess s) as [pr|] eqn:Epr; exec; [|left; reflexivity].
    destruct (p_currentCommand pr) as [t|] eqn:Ec; [|left; reflexivity].
    destruct (t_ref t =? ref)%nat; exec; [|left; reflexivity].
    match goal with
    | |- context [if ?c then _ else _] => destruct c
    end.
    + destruct (Server_completeCommandK_delivers now ref id p s) as [H|H].
      * left. exact H.
      * right. exists p, id. exact H.
    + left. exec. cbn [rdeProcess set_timers set_nextId]. rewrite Epr.
      exec. rewrite Ec. exec.
      cbn [rdeProcess set_timers set_nextId]. rewrite Epr. exec.
      reflexivity.
  - left. apply delivered_no_resolve. revert s.
    eapply triple_outs. unfold Server.connectTimeout. quiet_run.
Qed.

(** ** Exit codes *)

Ltac zero_run :=
  triple_run ltac:(exact Logic.I) ltac:(first [exact Logic.I | reflexivity]).

Lemma zero_Main_handle (now : Z) (ev : event) :
  triple (fun _ => True) exit_zero (Main.handle now ev) (fun _ => True).
Proof.
  assert (Hp : triple (fun _ => True) exit_zero (Main.processNextCommand now)
                      (fun _ => True))
    by (unfold Main.processNextCommand; zero_run).
  destruct ev; unfold Main.handle.
  - unfold Main.connect, Main.createRDESession. zero_run.
  - unfold Main.disconnect. zero_run.
  - unfold Main.execute, Main.executeInRDESession. zero_run.
  - unfold Main.onStdout, Main.stdoutLine, Main.captureLine. zero_run.
  - unfold Main.onStderr. zero_run.
  - unfold Main.onExit. zero_run.
  - unfold Main.onError. zero_run.
  - unfold Main.onTimer, Main.runTimer, Main.hardTimeout, Main.earlyComplete,
      Main.connectTimeout.
    zero_run.
Qed.

Lemma zero_Server_completeCommandK (next : M unit) (ref : nat)
    (commandId : cmdid) (p : nat) :
  triple (fun _ => True) exit_zero next (fun _ => True) ->
  triple (fun _ => True) exit_zero
         (Server.completeCommandK next ref commandId p) (fun _ => True).
Proof. intros Hn. unfold Server.completeCommandK. zero_run. Qed.

Lemma zero_Server_checkOutputActivityK (next : M unit) (now : Z) (ref : nat)
    (commandId : cmdid) (p : nat) :
  triple (fun _ => True) exit_zero next (fun _ => True) ->
  triple (fun _ => True) exit_zero
         (Server.checkOutputActivityK next now ref commandId p)
         (fun _ => True).
Proof.
  intros Hn.
  pose proof (zero_Server_completeCommandK next ref commandId p Hn) as Hc.
  unfold Server.checkOutputActivityK. zero_run.
Qed.

Lemma zero_Server_processNextCommand (now : Z) :
  triple (fun _ => True) exit_zero (Server.processNextCommand now)
         (fun _ => True).
Proof.
  assert (H : forall fuel,
             triple (fun _ => True) exit_zero
                    (Server.processNextCommandN fuel now) (fun _ => True)).
  { induction fuel as [|fuel IH]; simpl; [apply triple_ret_any|].
    unfold Server.processNextBody. zero_run.
    apply zero_Server_checkOutputActivityK, IH. }
  intros s Hs. unfold Server.processNextCommand. apply H. exact Hs.
Qed.

Lemma zero_Server_handle (now : Z) (ev : event) :
  triple (fun _ => True) exit_zero (Server.handle now ev) (fun _ => True).
Proof.
  pose proof (zero_Server_processNextCommand now) as Hp.
  destruct ev; unfold Server.handle.
  - unfold Server.connect, Server.createRDESession. zero_run.
  - unfold Server.disconnect. zero_run.
  - unfold Server.execute, Server.executeInRDESession. zero_run.
  - unfold Server.onStdout, Server.stdoutLine. zero_run.
  - unfold Server.onStderr. zero_run.
  - unfold Server.onExit, Server.resolvePendingConnection. zero_run.
  - unfold Server.onError, Server.resolvePendingConnection. zero_run.
  - unfold Server.onTimer, Server.runTimer, Server.hardTimeout,
      Server.earlyComplete, Server.connectTimeout, Server.checkOutputActivity,
      Server.completeCommand.
    zero_run;
      first [ apply zero_Server_completeCommandK; exact Hp
            | apply zero_Server_checkOutputActivityK; exact Hp ].
Qed.

Lemma zero_Main_run (evs : list (Z * event)) (s : state) :
  Forall exit_zero (snd (Main.run s evs)).
Proof.
  revert s. induction evs as [|ev r IH]; intros s; simpl; [constructor|].
  unfold Main.step.
  pose proof (zero_Main_handle (fst ev) (snd ev) s Logic.I) as H1.
  destruct (Main.handle (fst ev) (snd ev) s) as [[res s1] o1].
  assert (H2 : Forall exit_zero (snd (Main.drain s1))).
  { revert s1 H1. intros s1 _. revert s1. eapply triple_outs.
    unfold Main.drain, Main.connectContinue. zero_run. }
  destruct (Main.drain s1) as [[res2 s2] o2].
  specialize (IH s2). destruct (Main.run s2 r) as [s3 o3]. simpl in *.
  repeat (apply Forall_app; split); try tauto.
  destruct res; repeat constructor.
Qed.

Lemma zero_Server_run (evs : list (Z * event)) (s : state) :
  Forall exit_zero (snd (Server.run s evs)).
Proof.
  revert s. induction evs as [|ev r IH]; intros s; simpl; [constructor|].
  unfold Server.step.
  pose proof (zero_Server_handle (fst ev) (snd ev) s Logic.I) as H1.
  destruct (Server.handle (fst ev) (snd ev) s) as [[res s1] o1].
  assert (H2 : Forall exit_zero (snd (Server.drain s1))).
  { revert s1 H1. intros s1 _. revert s1. eapply triple_outs.
    unfold Server.drain, Server.connectContinue. zero_run. }
  destruct (Server.drain s1) as [[res2 s2] o2].
  specialize (IH s2). destruct (Server.run s2 r) as [s3 o3]. simpl in *.
  repeat (apply Forall_app; split); try tauto.
  destruct res; repeat constructor.
Qed.

(** C2: whichever trigger completes a command (prompt line, early timer,
    inactivity check, fallback timer), in main.js and in server.js, the
    result it delivers has exit code 0 and as output the lines captured for
    the command joined by newlines; nothing else delivers a result, and no
    run ever delivers an exit code other than 0. *)
Theorem C2_result_is_exit_zero_and_joined_lines :
  (* main.js: the triggers, for the Active command t *)
  (forall now line s t,
      matches_prompt line = true -> active s = Some t ->
      delivered (snd (Main.stdoutLine now line s)) =
      [(t_resolve t,
        {| exitCode := 0; output := join_nl (captured s (t_id t)) |})])
  /\
  (forall now s t,
      active s = Some t ->
      delivered (snd (Main.runTimer now (EarlyMain (t_id t)) s)) =
      [(t_resolve t,
        {| exitCode := 0; output := join_nl (captured s (t_id t)) |})])
  /\
  (forall now s t,
      active s = Some t ->
      delivered (snd (Main.runTimer now
                        (HardTimeout (t_ref t) (t_id t) (t_resolve t)) s)) =
      [(t_resolve t,
        {| exitCode := 0; output := join_nl (captured s (t_id t)) |})])
  /\
  (* server.js: the triggers, for the Active command t *)
  (forall now line s t,
      Server.isPrompt line = true -> active s = Some t ->
      delivered (snd (Server.stdoutLine now line s)) =
      [(t_resolve t,
        {| exitCode := 0; output := join_nl (captured s (t_id t)) |})])
  /\
  (forall now s t,
      active s = Some t ->
      delivered (snd (Server.runTimer now
                        (EarlyServer (t_id t) (t_resolve t) (t_timeout t))
                        s)) =
      [(t_resolve t,
        {| exitCode := 0; output := join_nl (captured s (t_id t)) |})])
  /\
  (forall now s t,
      active s = Some t ->
      delivered (snd (Server.runTimer now
                        (HardTimeout (t_ref t) (t_id t) (t_resolve t)) s)) =
      [(t_resolve t,
        {| exitCode := 0; output := join_nl (captured s (t_id t)) |})])
  /\
  (forall now s t,
      active s = Some t ->
      (1000 <= now - t_lastOutputTime t)%Z -> captured s (t_id t) <> [] ->
      delivered (snd (Server.runTimer now
                        (OutputActivity (t_ref t) (t_id t) (t_resolve t))
                        s)) =
      [(t_resolve t,
        {| exitCode := 0; output := join_nl (captured s (t_id t)) |})])
  /\
  (* nothing else is delivered by a line or by a timer *)
  (forall now line s p r,
      In (Resolve p r) (snd (Main.stdoutLine now line s)) ->
      matches_prompt line = true /\
      exists t, active s = Some t /\ Resolve p r = result_of s t)
  /\
  (forall now line s p r,
      In (Resolve p r) (snd (Server.stdoutLine now line s)) ->
      Server.isPrompt line = true /\
      exists t, active s = Some t /\ Resolve p r = result_of s t)
  /\
  (forall now cb s,
      delivered (snd (Main.runTimer now cb s)) = [] \/
      exists p id,
        delivered (snd (Main.runTimer now cb s)) =
        [(p, {| exitCode := 0; output := join_nl (captured s id) |})])
  /\
  (forall now cb s,
      delivered (snd (Server.runTimer now cb s)) = [] \/
      exists p id,
        delivered (snd (Server.runTimer now cb s)) =
        [(p, {| exitCode := 0; output := join_nl (captured s id) |})])
  /\
  (* over whole runs, from any state *)
  (forall s evs p r,
      In (Resolve p r) (snd (Main.run s evs)) -> exitCode r = 0%Z)
  /\
  (forall s evs p r,
      In (Resolve p r) (snd (Server.run s evs)) -> exitCode r = 0%Z).
Proof.
  pose proof (fun now =>
    triple_outs _ _ _ (quiet_Main_processNextCommand now)) as Hm.
  pose proof (fun now =>
    triple_outs _ _ _ (quiet_Server_processNextCommand now)) as Hs.
  repeat match goal with |- _ /\ _ => split end.
  - intros now line s t Hp Ha. rewrite (Main_prompt now line s t Hp Ha).
    apply delivered_prepend_quiet, Hm.
  - intros now s t Ha. cbn [Main.runTimer]. rewrite (Main_early now s t Ha).
    apply delivered_prepend_quiet, Hm.
  - intros now s t Ha. cbn [Main.runTimer]. rewrite (Main_hard now s t Ha).
    apply delivered_prepend_quiet, Hm.
  - intros now line s t Hp Ha. rewrite (Server_prompt now line s t Hp Ha).
    apply delivered_prepend_quiet, Hs.
  - intros now s t Ha. cbn [Server.runTimer].
    rewrite (Server_early now s t Ha). apply delivered_prepend_quiet, Hs.
  - intros now s t Ha. cbn [Server.runTimer].
    rewrite (Server_hard now s t Ha). apply delivered_prepend_quiet, Hs.
  - intros now s t Ha Hq Hc. cbn [Server.runTimer].
    rewrite (Server_activity now s t Ha).
    apply Z.leb_le in Hq. rewrite Hq.
    destruct (captured s (t_id t)) eqn:Ec; [congruence|]. cbn [List.length].
    cbn [Nat.ltb Nat.leb andb]. rewrite (Server_complete now s t Ha).
    rewrite delivered_prepend_quiet by apply Hs.
    unfold result_of. rewrite Ec. reflexivity.
  - exact Main_line_delivers.
  - exact Server_line_delivers.
  - exact Main_timer_delivers.
  - exact Server_timer_delivers.
  - intros s evs p r Hin. pose proof (zero_Main_run evs s) as H.
    rewrite Forall_forall in H. exact (H _ Hin).
  - intros s evs p r Hin. pose proof (zero_Server_run evs s) as H.
    rewrite Forall_forall in H. exact (H _ Hin).
Qed.

Lemma C2_witness :
  matches_prompt (lit "$ ") = true /\
  active Scenario.main_ok_printed =
    Some (Scenario.the_active Scenario.main_ok_printed) /\
  delivered (snd (Main.stdoutLine 40 (lit "$ ") Scenario.main_ok_printed)) =
  [(t_resolve (Scenario.the_active Scenario.main_ok_printed),
    {| exitCode := 0;
       output :=
         join_nl (captured Scenario.main_ok_printed
                    (t_id (Scenario.the_active Scenario.main_ok_printed))) |})].
Proof.
  assert (H1 : matches_prompt (lit "$ ") = true) by (vm_compute; reflexivity).
  assert (H2 : active Scenario.main_ok_printed =
               Some (Scenario.the_active Scenario.main_ok_printed))
    by (vm_compute; reflexivity).
  split; [exact H1|]. split; [exact H2|].
  exact (proj1 C2_result_is_exit_zero_and_joined_lines 40%Z (lit "$ ")
           Scenario.main_ok_printed
           (Scenario.the_active Scenario.main_ok_printed) H1 H2).
Defined.

(** ** Prompt lines *)

(** The prompt pattern: the line ends in [#] or [$] followed by white space
    only. *)
Lemma matches_prompt_spec (line : jsstring) :
  matches_prompt line = true <->
  exists pre c ws,
    line = pre ++ c :: ws /\ (c = 35 \/ c = 36)%N /\ forallb is_ws ws = true.
Proof.
  induction line as [|x r IH]; simpl.
  - split; [discriminate|]. intros [pre [c [ws [H _]]]].
    destruct pre; discriminate.
  - rewrite orb_true_iff, andb_true_iff, orb_true_iff, !N.eqb_eq, IH.
    split.
    + intros [[Hx Hw]|[pre [c [ws [E [Hc Hw]]]]]].
      * exists [], x, r. auto.
      * exists (x :: pre), c, ws. subst r. auto.
    + intros [pre [c [ws [E [Hc Hw]]]]].
      destruct pre as [|y pre'].
      * inversion E; subst. left. auto.
      * inversion E; subst. right. exists pre', c, ws. auto.
Qed.

Lemma completed_free (cleared : list (option nat)) (t : tracker) (s : state) :
  active (completed cleared t s) = None /\
  isExecutingCommand (completed cleared t s) = false /\
  commandQueue (completed cleared t s) = commandQueue s.
Proof.
  unfold active, completed. cbn. destruct (rdeProcess s); auto.
Qed.

(** C3: with a command Active, a line that matches the prompt pattern (it
    ends in [#] or [$] followed by white space only) completes that command
    at once: its promise is resolved with the join of the lines captured
    before, the slot is freed and the next queued command is taken up; for
    the chunk [ok], newline, [$ ] received after [echo ok] was submitted,
    the command completes with output [ok]. *)
Theorem C3_prompt_line_completes_active_command :
  (forall line,
      matches_prompt line = true <->
      exists pre c ws,
        line = pre ++ c :: ws /\ (c = 35 \/ c = 36)%N /\
        forallb is_ws ws = true)
  /\
  (forall now line s t,
      matches_prompt line = true -> active s = Some t ->
      Main.stdoutLine now line s =
        prepend
          [Resolve (t_resolve t)
             {| exitCode := 0; output := join_nl (captured s (t_id t)) |}]
          (Main.processNextCommand now (completed [t_timeout t] t s)) /\
      delivered (snd (Main.stdoutLine now line s)) =
        [(t_resolve t,
          {| exitCode := 0; output := join_nl (captured s (t_id t)) |})] /\
      active (completed [t_timeout t] t s) = None)
  /\
  (forall now line s t,
      Server.isPrompt line = true -> active s = Some t ->
      Server.stdoutLine now line s =
        prepend
          [Resolve (t_resolve t)
             {| exitCode := 0; output := join_nl (captured s (t_id t)) |}]
          (Server.processNextCommand now
             (completed [t_timeout t; t_outputTimeout t] t s)) /\
      delivered (snd (Server.stdoutLine now line s)) =
        [(t_resolve t,
          {| exitCode := 0; output := join_nl (captured s (t_id t)) |})] /\
      active (completed [t_timeout t; t_outputTimeout t] t s) = None)
  /\
  delivered (snd (Main.run init
                    (Scenario.echo_ok ++
                     [(30%Z, StdoutData (lit "ok" ++ NL :: lit "$ "))])))
    = [(3%nat, {| exitCode := 0; output := lit "ok" |})]
  /\
  delivered (snd (Server.run init
                    (Scenario.echo_ok ++
                     [(30%Z, StdoutData (lit "ok" ++ NL :: lit "$ "))])))
    = [(3%nat, {| exitCode := 0; output := lit "ok" |})].
Proof.
  split; [exact matches_prompt_spec|].
  split; [|split; [|split]].
  - intros now line s t Hp Ha. split; [exact (Main_prompt now line s t Hp Ha)|].
    split; [|apply completed_free].
    rewrite (Main_prompt now line s t Hp Ha).
    apply delivered_prepend_quiet.
    apply (triple_outs _ _ _ (quiet_Main_processNextCommand now)).
  - intros now line s t Hp Ha.
    split; [exact (Server_prompt now line s t Hp Ha)|].
    split; [|apply completed_free].
    rewrite (Server_prompt now line s t Hp Ha).
    apply delivered_prepend_quiet.
    apply (triple_outs _ _ _ (quiet_Server_processNextCommand now)).
  - vm_compute. reflexivity.
  - vm_compute. reflexivity.
Qed.

Lemma C3_witness :
  matches_prompt (lit "user@rde:~$ ") = true /\
  active Scenario.server_ok_printed =
    Some (Scenario.the_active Scenario.server_ok_printed) /\
  delivered (snd (Server.stdoutLine 40 (lit "user@rde:~$ ")
                    Scenario.server_ok_printed)) =
  [(t_resolve (Scenario.the_active Scenario.server_ok_printed),
    {| exitCode := 0;
       output :=
         join_nl (captured Scenario.server_ok_printed
                    (t_id (Scenario.the_active
                             Scenario.server_ok_printed))) |})].
Proof.
  assert (H1 : Server.isPrompt (lit "user@rde:~$ ") = true)
    by (vm_compute; reflexivity).
  assert (H2 : active Scenario.server_ok_printed =
               Some (Scenario.the_active Scenario.server_ok_printed))
    by (vm_compute; reflexivity).
  split; [exact H1|]. split; [exact H2|].
  exact (proj1 (proj2 (proj1 (proj2 (proj2
           C3_prompt_line_completes_active_command))
           40%Z (lit "user@rde:~$ ") Scenario.server_ok_printed
           (Scenario.the_active Scenario.server_ok_printed) H1 H2))).
Defined.

(** ** The early-completion timer *)

Lemma early_policy_truthy (command : jsstring) :
  early_policy command -> truthy command = true.
Proof. destruct command; [discriminate|reflexivity]. Qed.

Lemma cmdid_eqb_sym (a b : cmdid) : cmdid_eqb a b = cmdid_eqb b a.
Proof.
  unfold cmdid_eqb. rewrite Z.eqb_sym, Nat.eqb_sym. reflexivity.
Qed.

(** What the callback does to the slot, the timers and the id counter when
    the line is captured. *)
Lemma Main_captureLine_effect (now : Z) (line : jsstring) (k : cmdid)
    (s : state) (pid : nat) (t : tracker) :
  truthy (trim line) = true ->
  rdeProcess s = Some {| p_pid := pid; p_currentCommand := Some t |} ->
  exists s',
    Main.captureLine now line false k s =
      (Ok tt, s', [CommandOutput k Stdout (trim line)]) /\
    if (cmdid_eqb (t_id t) k && truthy (t_command t)
        && includes (lit "supervisorctl status") (t_command t)
        && negb (t_earlyCompleteScheduled t))%bool
    then
      rdeProcess s' =
        Some {| p_pid := pid; p_currentCommand := Some (scheduled t) |} /\
      timers s' = timers s ++ [{| tm_id := nextId s; tm_due := now + 300;
                                  tm_cb := EarlyMain k |}] /\
      nextId s' = S (nextId s)
    else
      rdeProcess s' = rdeProcess s /\ timers s' = timers s /\
      nextId s' = nextId s.
Proof.
  intros Ht Epr. unfold Main.captureLine. rewrite Ht. cbn [negb andb when].
  unfold pushStdout. exec.
  set (s1 := match map_get k (commandOutputs s) with
             | Some o => _
             | None => s
             end).
  assert (H1 : rdeProcess s1 = rdeProcess s /\ timers s1 = timers s /\
               nextId s1 = nextId s).
  { subst s1. destruct (map_get k (commandOutputs s)); auto. }
  destruct H1 as [R1 [R2 R3]]. clearbody s1.
  rewrite R1, Epr. exec. cbn [p_currentCommand].
  destruct (cmdid_eqb (t_id t) k && truthy (t_command t)
            && includes (lit "supervisorctl status") (t_command t))%bool;
    cbn [andb when].
  - destruct (t_earlyCompleteScheduled t); cbn [negb when].
    + eexists. split; [reflexivity|]. cbn. rewrite ?R1, ?R2, ?R3, ?Epr. auto.
    + exec. rewrite R1, Epr. exec.
      eexists. split; [reflexivity|]. cbn. rewrite R2, R3. auto.
  - eexists. split; [reflexivity|]. cbn. rewrite ?R1, ?R2, ?R3, ?Epr. auto.
Qed.

Lemma Main_capture_loop_flagged (now : Z) (line : jsstring) (keys : list cmdid)
    (s : state) (pid : nat) (t : tracker) :
  truthy (trim line) = true ->
  rdeProcess s = Some {| p_pid := pid; p_currentCommand := Some t |} ->
  t_earlyCompleteScheduled t = true ->
  exists s',
    forEach keys (Main.captureLine now line false) s =
      (Ok tt, s', map (fun k => CommandOutput k Stdout (trim line)) keys) /\
    rdeProcess s' = rdeProcess s /\ timers s' = timers s /\
    nextId s' = nextId s.
Proof.
  intros Ht. revert s. induction keys as [|k r IH]; intros s Epr Hf.
  - exists s. auto.
  - destruct (Main_captureLine_effect now line k s pid t Ht Epr)
      as [s1 [E1 H1]].
    rewrite Hf, andb_false_r in H1. destruct H1 as [R1 [R2 R3]].
    destruct (IH s1) as [s2 [E2 [Q1 [Q2 Q3]]]];
      [rewrite R1; exact Epr|exact Hf|].
    exists s2. cbn [forEach]. unfold bind. rewrite E1, E2.
    split; [reflexivity|]. rewrite Q1, Q2, Q3. auto.
Qed.

Lemma Main_capture_loop_first (now : Z) (line : jsstring) (keys : list cmdid)
    (s : state) (pid : nat) (t : tracker) :
  truthy (trim line) = true ->
  rdeProcess s = Some {| p_pid := pid; p_currentCommand := Some t |} ->
  t_earlyCompleteScheduled t = false ->
  early_policy (t_command t) ->
  existsb (cmdid_eqb (t_id t)) keys = true ->
  exists s',
    forEach keys (Main.captureLine now line false) s =
      (Ok tt, s', map (fun k => CommandOutput k Stdout (trim line)) keys) /\
    rdeProcess s' =
      Some {| p_pid := pid; p_currentCommand := Some (scheduled t) |} /\
    timers s' = timers s ++ [{| tm_id := nextId s; tm_due := now + 300;
                                tm_cb := EarlyMain (t_id t) |}] /\
    nextId s' = S (nextId s).
Proof.
  intros Ht. revert s. induction keys as [|k r IH]; intros s Epr Hf Hc Hk.
  - discriminate.
  - destruct (Main_captureLine_effect now line k s pid t Ht Epr)
      as [s1 [E1 H1]].
    rewrite Hf, (early_policy_truthy _ Hc), Hc in H1.
    cbn [negb] in H1. rewrite !andb_true_r in H1.
    cbn [existsb] in Hk.
    destruct (cmdid_eqb (t_id t) k) eqn:Ek.
    + destruct H1 as [R1 [R2 R3]].
      apply cmdid_eqb_eq in Ek. subst k.
      destruct (Main_capture_loop_flagged now line r s1 pid (scheduled t) Ht
                  R1 eq_refl) as [s2 [E2 [Q1 [Q2 Q3]]]].
      exists s2. cbn [forEach]. unfold bind. rewrite E1, E2.
      split; [reflexivity|]. rewrite Q1, Q2, Q3. auto.
    + destruct H1 as [R1 [R2 R3]]. cbn [orb] in Hk.
      destruct (IH s1) as [s2 [E2 [Q1 [Q2 Q3]]]];
        [rewrite R1; exact Epr|exact Hf|exact Hc|exact Hk|].
      exists s2. cbn [forEach]. unfold bind. rewrite E1, E2.
      split; [reflexivity|]. rewrite Q1, Q2, Q3, R2, R3. auto.
Qed.

Lemma map_get_existsb (id : cmdid) (m : list (cmdid * outbuf)) :
  map_get id m <> None -> existsb (cmdid_eqb id) (map fst m) = true.
Proof.
  induction m as [|[k v] r IH]; simpl; [congruence|].
  rewrite (cmdid_eqb_sym id k).
  destruct (cmdid_eqb k id); [reflexivity|exact IH].
Qed.

(** main.js, the first captured line of a command under the early policy:
    one timer of 300 ms is set and the tracker is flagged. *)
Lemma Main_first_line_schedules (now : Z) (line : jsstring) (s : state)
    (t : tracker) :
  active s = Some t -> early_policy (t_command t) ->
  t_earlyCompleteScheduled t = false -> captured_line line ->
  map_get (t_id t) (commandOutputs s) <> None ->
  timers (state_after (Main.stdoutLine now line s)) =
    timers s ++ [{| tm_id := nextId s; tm_due := now + 300;
                    tm_cb := EarlyMain (t_id t) |}] /\
  active (state_after (Main.stdoutLine now line s)) = Some (scheduled t).
Proof.
  intros Ha Hc Hf [Ht Hp] Hk. unfold active in Ha.
  destruct (rdeProcess s) as [[pid cur]|] eqn:Epr; [|discriminate].
  cbn in Ha. subst cur.
  unfold Main.stdoutLine. rewrite Hp. exec.
  destruct (Main_capture_loop_first now line (map fst (commandOutputs s)) s
              pid t Ht Epr Hf Hc (map_get_existsb _ _ Hk))
    as [s1 [E1 [R1 [R2 R3]]]].
  unfold bind. rewrite E1. cbn. unfold active. rewrite R1, R2. auto.
Qed.

(** main.js, a further captured line: no second timer. *)
Lemma Main_next_line_schedules_nothing (now : Z) (line : jsstring) (s : state)
    (t : tracker) :
  active s = Some t -> t_earlyCompleteScheduled t = true ->
  captured_line line ->
  timers (state_after (Main.stdoutLine now line s)) = timers s /\
  active (state_after (Main.stdoutLine now line s)) = Some t.
Proof.
  intros Ha Hf [Ht Hp]. unfold active in Ha.
  destruct (rdeProcess s) as [[pid cur]|] eqn:Epr; [|discriminate].
  cbn in Ha. subst cur.
  unfold Main.stdoutLine. rewrite Hp. exec.
  destruct (Main_capture_loop_flagged now line (map fst (commandOutputs s)) s
              pid t Ht Epr Hf) as [s1 [E1 [R1 [R2 R3]]]].
  unfold bind. rewrite E1. cbn. unfold active. rewrite R1, R2, Epr. auto.
Qed.

(** Unfolding a handler at a state whose process is known. *)
Ltac exec_at Epr :=
  repeat first
    [ progress exec
    | match goal with
      | E : map_get ?i ?m = _ |- context [map_get ?i ?m] => rewrite E
      end
    | progress cbn [rdeProcess timers nextId commandOutputs
                    set_commandOutputs set_rdeProcess set_timers set_nextId
                    set_isExecutingCommand p_currentCommand p_pid]
    | rewrite Epr
    | rewrite map_get_set_same ].

(** server.js, a captured line: the time of the last output is noted; the
    first such line of a command under the early policy sets one timer of
    2 s, a further one sets none. *)
Lemma Server_line_schedules (now : Z) (line : jsstring) (s : state)
    (t : tracker) :
  active s = Some t -> captured_line line ->
  (early_policy (t_command t) -> t_earlyCompleteScheduled t = false ->
   timers (state_after (Server.stdoutLine now line s)) =
     timers s ++ [{| tm_id := nextId s; tm_due := now + 2000;
                     tm_cb := EarlyServer (t_id t) (t_resolve t)
                                          (t_timeout t) |}] /\
   active (state_after (Server.stdoutLine now line s)) =
     Some (scheduled (Server.set_lastOutputTime now t)))
  /\
  (t_earlyCompleteScheduled t = true ->
   timers (state_after (Server.stdoutLine now line s)) = timers s /\
   active (state_after (Server.stdoutLine now line s)) =
     Some (Server.set_lastOutputTime now t)).
Proof.
  intros Ha [Ht Hp]. unfold active in Ha.
  destruct (rdeProcess s) as [[pid cur]|] eqn:Epr; [|discriminate].
  cbn in Ha. subst cur.
  unfold Server.stdoutLine, Server.isPrompt. rewrite Hp, Ht.
  cbn [negb when]. exec. rewrite Epr. exec. cbn [p_currentCommand].
  unfold pushStdout.
  split.
  - intros Hc Hf. rewrite (early_policy_truthy _ Hc), Hc. cbn [andb when].
    destruct (map_get (t_id t) (commandOutputs s)) as [o|] eqn:Eg;
      exec_at Epr;
      cbn [Server.set_lastOutputTime t_earlyCompleteScheduled];
      rewrite Hf; cbn [negb]; exec_at Epr;
      unfold state_after, active, prepend; cbn; auto.
  - intros Hf.
    destruct (map_get (t_id t) (commandOutputs s)) as [o|] eqn:Eg;
      exec_at Epr;
      destruct (truthy (t_command t)
                && includes (lit "supervisorctl status") (t_command t))%bool;
      exec_at Epr;
      cbn [Server.set_lastOutputTime t_earlyCompleteScheduled];
      rewrite ?Hf; cbn [negb]; exec_at Epr;
      unfold state_after, active, prepend; cbn; rewrite ?Epr; auto.
Qed.

Lemma forEach_emit {A} (f : A -> out) (l : list A) (s : state) :
  forEach l (fun x => emit (f x)) s = (Ok tt, s, map f l).
Proof.
  induction l as [|x r IH]; [reflexivity|].
  cbn [forEach map]. rewrite bind_emit, IH. reflexivity.
Qed.

Lemma bind_forEach_emit {A B} (f : A -> out) (l : list A) (k : unit -> M B)
    (s : state) :
  bind (forEach l (fun x => emit (f x))) k s = prepend (map f l) (k tt s).
Proof.
  unfold bind. rewrite forEach_emit. unfold prepend.
  destruct (k tt s) as [[? ?] ?]. reflexivity.
Qed.

(** ** The Active command of main.js has its entry *)

Section Entries.

Local Abbreviation E := (triple entries_present (fun _ => True)).

Lemma entries_idle (s : state) : active s = None -> entries_present s.
Proof. intros H t Ht. congruence. Qed.

Lemma entries_no_process (s : state) : rdeProcess s = None -> entries_present s.
Proof. intros H. apply entries_idle. unfold active. rewrite H. reflexivity. Qed.

(** A handler that ends with the slot empty, whatever it started from. *)
Lemma entries_when_idle {A} (m : M A) :
  (forall s, active (state_after (m s)) = None) -> E m (fun _ => True).
Proof.
  intros H s _. specialize (H s). unfold state_after in H.
  destruct (m s) as [[r s1] o]. simpl in H.
  split; [apply entries_idle, H|]. split; [|destruct r; exact Logic.I].
  clear. induction o; constructor; auto.
Qed.

Lemma entries_Main_processNextCommand (now : Z) :
  E (Main.processNextCommand now) (fun _ => True).
Proof.
  intros s Hs.
  assert (Ho : forall o : list out, Forall (fun _ => True) o)
    by (induction o; constructor; auto).
  unfold Main.processNextCommand. exec.
  destruct (commandQueue s) as [|q rest]; [cbn; auto|].
  destruct (isExecutingCommand s); [cbn; auto|].
  exec. cbn [rdeProcess set_timers set_nextId set_commandOutputs
             set_isExecutingCommand set_commandQueue].
  destruct (rdeProcess s) as [pr|] eqn:Epr; exec.
  - cbn [rdeProcess set_rdeProcess]. exec.
    unfold modify, prepend. cbn.
    split; [|auto]. intros t Ht. unfold active in Ht. cbn in Ht.
    inversion Ht; subst. cbn. rewrite map_get_set_same. discriminate.
  - cbn. split; [|auto]. apply entries_no_process. cbn. exact Epr.
Qed.

Lemma entries_intro {A} (m : M A) :
  (forall s, entries_present s -> entries_present (state_after (m s))) ->
  E m (fun _ => True).
Proof.
  intros H s Hs. specialize (H s Hs). unfold state_after in H.
  destruct (m s) as [[r s1] o]. simpl in H.
  split; [exact H|]. split; [|destruct r; exact Logic.I].
  clear. induction o; constructor; auto.
Qed.

Lemma entries_elim {A} (m : M A) (R : A -> Prop) (s : state) :
  E m R -> entries_present s -> entries_present (state_after (m s)).
Proof.
  intros H Hs. specialize (H s Hs). unfold state_after.
  destruct (m s) as [[r s1] o]. simpl. tauto.
Qed.

Lemma state_after_prepend {A} (o : list out)
    (x : outcome A * state * list out) :
  state_after (prepend o x) = state_after x.
Proof. reflexivity. Qed.

Lemma map_get_set_present (k id : cmdid) (v o : outbuf)
    (m : list (cmdid * outbuf)) :
  map_get k m = Some o ->
  map_get id (map_set k v m) = None <-> map_get id m = None.
Proof.
  induction m as [|[k' w] r IH]; simpl; [discriminate|].
  destruct (cmdid_eqb k' k) eqn:Ek; intros Hg; simpl.
  - destruct (cmdid_eqb k' id); [split; discriminate|reflexivity].
  - destruct (cmdid_eqb k' id); [split; discriminate|apply IH, Hg].
Qed.

Lemma entries_pushStdout (id : cmdid) (l : jsstring) :
  E (pushStdout id l) (fun _ => True).
Proof.
  apply entries_intro. intros s Hs. unfold pushStdout, modify, state_after.
  cbn. destruct (map_get id (commandOutputs s)) as [o|] eqn:Eg; [|exact Hs].
  intros t Ht. unfold active in *. cbn in *.
  rewrite (map_get_set_present id (t_id t) _ o _ Eg). apply Hs, Ht.
Qed.

Lemma entries_Main_captureLine (now : Z) (line : jsstring) (b : bool)
    (k : cmdid) :
  E (Main.captureLine now line b k) (fun _ => True).
Proof.
  unfold Main.captureLine. apply triple_when. intros _.
  eapply triple_bind; [apply entries_pushStdout|]. intros _ _.
  apply entries_intro. intros s Hs. exec.
  rewrite state_after_prepend.
  destruct (rdeProcess s) as [pr|] eqn:Epr; exec; [|exact Hs].
  destruct (p_currentCommand pr) as [t|] eqn:Ec; [|exact Hs].
  destruct (cmdid_eqb (t_id t) k && truthy (t_command t)
            && includes (lit "supervisorctl status") (t_command t))%bool;
    cbn [when]; [|exact Hs].
  destruct (t_earlyCompleteScheduled t); cbn [negb when]; [exact Hs|].
  exec. rewrite Epr. exec. unfold state_after, modify. cbn.
  intros t' Ht'. unfold active in Ht'. cbn in Ht'. inversion Ht'; subst.
  cbn. apply Hs. unfold active. rewrite Epr. exact Ec.
Qed.

Lemma entries_Main_stdoutLine (now : Z) (line : jsstring) :
  E (Main.stdoutLine now line) (fun _ => True).
Proof.
  destruct (matches_prompt line) eqn:Hp.
  - apply entries_intro. intros s Hs.
    destruct (active s) as [t|] eqn:Ha.
    + rewrite (Main_prompt now line s t Hp Ha), state_after_prepend.
      apply (entries_elim _ _ _ (entries_Main_processNextCommand now)).
      apply entries_idle, completed_free.
    + unfold Main.stdoutLine. rewrite Hp. exec.
      rewrite bind_forEach_skip by apply Main_captureLine_prompt. exec.
      unfold active in Ha. destruct (rdeProcess s) as [pr|]; exec.
      * rewrite Ha. exact Hs.
      * exact Hs.
  - unfold Main.stdoutLine. rewrite Hp.
    eapply triple_bind; [apply triple_get|]. intros s0 _.
    eapply triple_bind;
      [apply triple_forEach; intros k _; apply entries_Main_captureLine|].
    intros _ _. apply triple_ret_any.
Qed.

Lemma entries_Main_timer (now : Z) (cb : timer) :
  E (Main.runTimer now cb) (fun _ => True).
Proof.
  pose proof (entries_Main_processNextCommand now) as Hn.
  destruct cb as [ref id p|id|id p tm|ref id p|k]; cbn [Main.runTimer];
    try apply triple_ret_any.
  - apply entries_intro. intros s Hs. unfold Main.hardTimeout. exec.
    destruct (rdeProcess s) as [pr|] eqn:Epr; exec; [|exact Hs].
    destruct (p_currentCommand pr) as [t|]; [|exact Hs].
    destruct (t_ref t =? ref)%nat; exec; [|exact Hs].
    cbn [rdeProcess set_commandOutputs set_isExecutingCommand].
    rewrite Epr. exec. rewrite state_after_prepend.
    apply (entries_elim _ _ _ Hn). apply entries_idle. reflexivity.
  - apply entries_intro. intros s Hs. unfold Main.earlyComplete. exec.
    destruct (rdeProcess s) as [pr|] eqn:Epr; exec; [|exact Hs].
    destruct (p_currentCommand pr) as [t|]; [|exact Hs].
    destruct (cmdid_eqb (t_id t) id); exec; [|exact Hs].
    cbn [rdeProcess set_commandOutputs set_isExecutingCommand].
    rewrite Epr. exec. rewrite state_after_prepend.
    apply (entries_elim _ _ _ Hn). apply entries_idle. reflexivity.
  - unfold Main.connectTimeout.
    triple_run
      ltac:(idtac; match goal with H : entries_present _ |- _ => exact H end)
      ltac:(exact Logic.I).
Qed.

Lemma entries_pushStderr (id : cmdid) (l : jsstring) :
  E (pushStderr id l) (fun _ => True).
Proof.
  apply entries_intro. intros s Hs. unfold pushStderr, modify, state_after.
  cbn. destruct (map_get id (commandOutputs s)) as [o|] eqn:Eg; [|exact Hs].
  intros t Ht. unfold active in *. cbn in *.
  rewrite (map_get_set_present id (t_id t) _ o _ Eg). apply Hs, Ht.
Qed.

Ltac entries_inv :=
  first [ match goal with H : entries_present _ |- _ => exact H end
        | apply entries_no_process; reflexivity
        | apply entries_idle; reflexivity ].

Ltac entries_run :=
  repeat first
    [ apply entries_pushStderr
    | triple_run ltac:(idtac; entries_inv) ltac:(exact Logic.I) ].

Lemma entries_Main_createRDESession :
  E Main.createRDESession (fun _ => True).
Proof.
  apply entries_intro. intros s Hs. unfold Main.createRDESession. exec.
  destruct (rdeProcess s); exec; [exact Hs|].
  apply entries_idle. reflexivity.
Qed.

Lemma entries_Main_handle (now : Z) (ev : event) :
  E (Main.handle now ev) (fun _ => True).
Proof.
  pose proof (entries_Main_processNextCommand now) as Hn.
  pose proof entries_Main_createRDESession as Hc.
  destruct ev; unfold Main.handle.
  - unfold Main.connect. entries_run.
  - unfold Main.disconnect. entries_run.
  - unfold Main.execute, Main.executeInRDESession. entries_run.
  - unfold Main.onStdout. entries_run. apply entries_Main_stdoutLine.
  - unfold Main.onStderr. entries_run.
  - apply entries_intro. intros s _. apply entries_no_process.
    unfold Main.onExit. exec. rewrite bind_forEach_emit. exec. reflexivity.
  - apply entries_intro. intros s _. apply entries_no_process.
    unfold Main.onError. exec. rewrite bind_forEach_emit. exec. reflexivity.
  - unfold Main.onTimer. entries_run. apply entries_Main_timer.
Qed.

Lemma entries_Main_drain : E Main.drain (fun _ => True).
Proof. unfold Main.drain, Main.connectContinue. entries_run. Qed.

Lemma entries_Main_step (s : state) (ev : Z * event) :
  entries_present s -> entries_present (fst (Main.step s ev)).
Proof.
  intros Hs. unfold Main.step.
  pose proof (entries_Main_handle (fst ev) (snd ev) s Hs) as H1.
  destruct (Main.handle (fst ev) (snd ev) s) as [[r s1] o1].
  destruct H1 as [H1 _].
  pose proof (entries_Main_drain s1 H1) as H3.
  destruct (Main.drain s1) as [[r2 s2] o2]. destruct H3 as [H3 _].
  exact H3.
Qed.

Lemma entries_Main_run (evs : list (Z * event)) (s : state) :
  entries_present s -> entries_present (fst (Main.run s evs)).
Proof.
  revert s. induction evs as [|ev r IH]; intros s Hs; simpl; [exact Hs|].
  pose proof (entries_Main_step s ev Hs) as H1.
  destruct (Main.step s ev) as [s1 o1].
  specialize (IH s1 H1). destruct (Main.run s1 r) as [s2 o2]. exact IH.
Qed.

End Entries.

(** C4: for a command whose text contains [supervisorctl status], the first
    captured line sets exactly one grace timer (300 ms in main.js, 2 s in
    server.js) and flags the tracker (main.js does so inside the loop over
    [commandOutputs], at the entry of the Active command, an entry that is
    there in every state main.js reaches); with the flag set a further captured
    line sets no timer; when the timer runs with the command still Active
    the command completes with all lines captured so far, prompt or no
    prompt; five lines received within the window, with no prompt, are all
    in the delivered output. *)
Theorem C4_early_policy_one_timer_then_completion :
  (* main.js *)
  (forall now line s t,
      active s = Some t -> early_policy (t_command t) ->
      t_earlyCompleteScheduled t = false -> captured_line line ->
      entries_present s ->
      timers (state_after (Main.stdoutLine now line s)) =
        timers s ++ [{| tm_id := nextId s; tm_due := now + 300;
                        tm_cb := EarlyMain (t_id t) |}] /\
      active (state_after (Main.stdoutLine now line s)) =
        Some (scheduled t))
  /\
  (* the Active command has its entry in every state main.js reaches *)
  (forall evs, entries_present (fst (Main.run init evs)))
  /\
  (forall now line s t,
      active s = Some t -> t_earlyCompleteScheduled t = true ->
      captured_line line ->
      timers (state_after (Main.stdoutLine now line s)) = timers s /\
      active (state_after (Main.stdoutLine now line s)) = Some t)
  /\
  (forall now s t,
      active s = Some t ->
      delivered (snd (Main.runTimer now (EarlyMain (t_id t)) s)) =
      [(t_resolve t,
        {| exitCode := 0; output := join_nl (captured s (t_id t)) |})])
  /\
  (* server.js *)
  (forall now line s t,
      active s = Some t -> early_policy (t_command t) ->
      t_earlyCompleteScheduled t = false -> captured_line line ->
      timers (state_after (Server.stdoutLine now line s)) =
        timers s ++ [{| tm_id := nextId s; tm_due := now + 2000;
                        tm_cb := EarlyServer (t_id t) (t_resolve t)
                                             (t_timeout t) |}] /\
      active (state_after (Server.stdoutLine now line s)) =
        Some (scheduled (Server.set_lastOutputTime now t)))
  /\
  (forall now line s t,
      active s = Some t -> t_earlyCompleteScheduled t = true ->
      captured_line line ->
      timers (state_after (Server.stdoutLine now line s)) = timers s /\
      active (state_after (Server.stdoutLine now line s)) =
        Some (Server.set_lastOutputTime now t))
  /\
  (forall now s t,
      active s = Some t ->
      delivered (snd (Server.runTimer now
                        (EarlyServer (t_id t) (t_resolve t) (t_timeout t))
                        s)) =
      [(t_resolve t,
        {| exitCode := 0; output := join_nl (captured s (t_id t)) |})])
  /\
  (* five lines, no prompt *)
  (List.length
     (early_timers
        (fst (Main.run init (Scenario.status_all ++ Scenario.five_lines))))
     = 1%nat /\
   delivered
     (snd (Main.run init (Scenario.status_all ++ Scenario.five_lines)))
     = [] /\
   delivered
     (snd (Main.run init
             (Scenario.status_all ++ Scenario.five_lines ++
              [(400%Z, Timer 6)])))
     = [(3%nat,
         {| exitCode := 0;
            output := join_nl [lit "api RUNNING"; lit "risk RUNNING";
                               lit "llm STOPPED"; lit "ocr RUNNING";
                               lit "spv FATAL"] |})])
  /\
  (List.length
     (early_timers
        (fst (Server.run init (Scenario.status_all ++ Scenario.five_lines))))
     = 1%nat /\
   delivered
     (snd (Server.run init (Scenario.status_all ++ Scenario.five_lines)))
     = [] /\
   delivered
     (snd (Server.run init
             (Scenario.status_all ++ Scenario.five_lines ++
              [(2100%Z, Timer 6)])))
     = [(3%nat,
         {| exitCode := 0;
            output := join_nl [lit "api RUNNING"; lit "risk RUNNING";
                               lit "llm STOPPED"; lit "ocr RUNNING";
                               lit "spv FATAL"] |})]).
Proof.
  repeat match goal with |- _ /\ _ => split end.
  - intros now line s t Ha Hc Hf Hl Hk.
    apply (Main_first_line_schedules now line s t Ha Hc Hf Hl (Hk t Ha)).
  - intros evs. apply entries_Main_run, entries_idle. reflexivity.
  - intros now line s t Ha Hf Hl.
    apply (Main_next_line_schedules_nothing now line s t Ha Hf Hl).
  - intros now s t Ha. cbn [Main.runTimer]. rewrite (Main_early now s t Ha).
    apply delivered_prepend_quiet.
    apply (triple_outs _ _ _ (quiet_Main_processNextCommand now)).
  - intros now line s t Ha Hc Hf Hl.
    apply (proj1 (Server_line_schedules now line s t Ha Hl) Hc Hf).
  - intros now line s t Ha Hf Hl.
    apply (proj2 (Server_line_schedules now line s t Ha Hl) Hf).
  - intros now s t Ha. cbn [Server.runTimer].
    rewrite (Server_early now s t Ha).
    apply delivered_prepend_quiet.
    apply (triple_outs _ _ _ (quiet_Server_processNextCommand now)).
  - vm_compute. reflexivity.
  - vm_compute. reflexivity.
  - vm_compute. reflexivity.
  - vm_compute. reflexivity.
  - vm_compute. reflexivity.
  - vm_compute. reflexivity.
Qed.

Lemma C4_witness :
  timers (state_after (Main.stdoutLine 100 (lit "api RUNNING")
                         Scenario.main_status_started)) =
    timers Scenario.main_status_started ++
    [{| tm_id := nextId Scenario.main_status_started; tm_due := 100 + 300;
        tm_cb := EarlyMain
                   (t_id (Scenario.the_active
                            Scenario.main_status_started)) |}] /\
  active (state_after (Main.stdoutLine 100 (lit "api RUNNING")
                         Scenario.main_status_started)) =
    Some (scheduled (Scenario.the_active Scenario.main_status_started)).
Proof.
  apply (proj1 C4_early_policy_one_timer_then_completion 100%Z
           (lit "api RUNNING") Scenario.main_status_started
           (Scenario.the_active Scenario.main_status_started)).
  - vm_compute. reflexivity.
  - vm_compute. reflexivity.
  - vm_compute. reflexivity.
  - split; vm_compute; reflexivity.
  - intros t Ht. vm_compute in Ht. injection Ht as <-.
    vm_compute. discriminate.
Defined.

(** ** stderr *)

Lemma bind_frame {B} (m : M unit) (k : unit -> M B) (s s' : state) :
  m s = (Ok tt, s', []) -> bind m k s = k tt s'.
Proof.
  intros H. unfold bind. rewrite H.
  destruct (k tt s') as [[? ?] ?]. reflexivity.
Qed.

Lemma stdout_view_get (id : cmdid) (m m' : list (cmdid * outbuf)) :
  stdout_view m' = stdout_view m ->
  match map_get id m' with Some o => o_stdout o | None => [] end =
  match map_get id m with Some o => o_stdout o | None => [] end.
Proof.
  revert m'. induction m as [|[k v] r IH]; intros [|[k' v'] r'] H;
    try discriminate; [reflexivity|].
  simpl in H. inversion H; subst. simpl.
  destruct (cmdid_eqb k id); [assumption|apply IH; assumption].
Qed.

Lemma stdout_view_set (id : cmdid) (v o : outbuf)
    (m : list (cmdid * outbuf)) :
  map_get id m = Some o -> o_stdout v = o_stdout o ->
  stdout_view (map_set id v m) = stdout_view m.
Proof.
  induction m as [|[k w] r IH]; simpl; [discriminate|].
  destruct (cmdid_eqb k id) eqn:E; intros Hg Hv.
  - inversion Hg; subst. simpl. rewrite Hv. reflexivity.
  - simpl. rewrite IH by assumption. reflexivity.
Qed.

Lemma same_but_stderr_refl (s : state) : same_but_stderr s s.
Proof. repeat split. Qed.

Lemma same_but_stderr_trans (s1 s2 s3 : state) :
  same_but_stderr s1 s2 -> same_but_stderr s2 s3 -> same_but_stderr s1 s3.
Proof.
  unfold same_but_stderr. intros H1 H2.
  repeat match goal with H : _ /\ _ |- _ => destruct H end.
  repeat split; congruence.
Qed.

Lemma same_but_stderr_captured (s s' : state) (id : cmdid) :
  same_but_stderr s s' -> captured s' id = captured s id.
Proof.
  intros H. unfold captured. apply stdout_view_get.
  unfold same_but_stderr in H. tauto.
Qed.

Lemma same_but_stderr_active (s s' : state) :
  same_but_stderr s s' -> active s' = active s.
Proof.
  intros H. unfold active.
  assert (E : rdeProcess s' = rdeProcess s) by (unfold same_but_stderr in H; tauto).
  rewrite E. reflexivity.
Qed.

Lemma pushStderr_same (id : cmdid) (e : jsstring) (s : state) :
  exists s', pushStderr id e s = (Ok tt, s', []) /\ same_but_stderr s s'.
Proof.
  unfold pushStderr, modify.
  destruct (map_get id (commandOutputs s)) as [o|] eqn:Eg.
  - eexists. split; [reflexivity|].
    unfold same_but_stderr, set_commandOutputs.
    cbn [currentTarget rdeProcess commandQueue isExecutingCommand
         commandOutputs commandCounter connectionResolve welcomeBuffer
         timers nextId microtasks].
    rewrite (stdout_view_set id
               {| o_stdout := o_stdout o; o_stderr := o_stderr o ++ [e] |}
               o _ Eg eq_refl).
    repeat split.
  - exists s. split; [reflexivity|apply same_but_stderr_refl].
Qed.

Lemma Main_onStderr_loop (e : jsstring) (keys : list cmdid) (s : state) :
  exists s',
    forEach keys
      (fun cmdId =>
         when (truthy e)
           (pushStderr cmdId e ;; emit (CommandOutput cmdId Stderr e))) s =
    (Ok tt, s',
     if truthy e then map (fun k => CommandOutput k Stderr e) keys else [])
    /\ same_but_stderr s s'.
Proof.
  destruct (truthy e); revert s; induction keys as [|k r IH]; intros s.
  - exists s. split; [reflexivity|apply same_but_stderr_refl].
  - cbn [forEach when map].
    destruct (pushStderr_same k e s) as [s1 [E1 H1]].
    destruct (IH s1) as [s2 [E2 H2]].
    exists s2. split; [|exact (same_but_stderr_trans _ _ _ H1 H2)].
    rewrite bind_bind, (bind_frame _ _ _ _ E1), bind_emit.
    cbn [when] in E2. rewrite E2. reflexivity.
  - exists s. split; [reflexivity|apply same_but_stderr_refl].
  - cbn [forEach when]. rewrite bind_ret. apply IH.
Qed.

(** What the stderr handler of main.js does. *)
Lemma Main_onStderr_spec (text : jsstring) (s : state) :
  snd (Main.onStderr text s) =
    (if truthy (trim text)
     then map (fun k => CommandOutput k Stderr (trim text))
              (map fst (commandOutputs s))
     else []) /\
  same_but_stderr s (state_after (Main.onStderr text s)).
Proof.
  unfold Main.onStderr. exec.
  destruct (Main_onStderr_loop (trim text) (map fst (commandOutputs s)) s)
    as [s' [E H]].
  rewrite E. split; [reflexivity|exact H].
Qed.

(** C9: in main.js the output delivered when a command completes is built
    from the captured stdout lines only: a chunk received on stderr is
    published, trimmed, as a streamed event with source stderr for every
    command that has an entry, it changes nothing but the stderr arrays, and
    whichever trigger completes the command afterwards delivers the join of
    the stdout lines captured before, which the stderr text is no part
    of. *)
Theorem C9_stderr_is_streamed_but_not_in_result :
  (forall text s,
      snd (Main.onStderr text s) =
        (if truthy (trim text)
         then map (fun k => CommandOutput k Stderr (trim text))
                  (map fst (commandOutputs s))
         else []) /\
      same_but_stderr s (state_after (Main.onStderr text s)) /\
      (forall id,
          captured (state_after (Main.onStderr text s)) id = captured s id))
  /\
  (forall text now line s t,
      active s = Some t -> matches_prompt line = true ->
      delivered (snd (Main.stdoutLine now line
                        (state_after (Main.onStderr text s)))) =
      [(t_resolve t,
        {| exitCode := 0; output := join_nl (captured s (t_id t)) |})])
  /\
  (forall text now s t,
      active s = Some t ->
      delivered (snd (Main.runTimer now (EarlyMain (t_id t))
                        (state_after (Main.onStderr text s)))) =
      [(t_resolve t,
        {| exitCode := 0; output := join_nl (captured s (t_id t)) |})])
  /\
  (forall text now s t,
      active s = Some t ->
      delivered (snd (Main.runTimer now
                        (HardTimeout (t_ref t) (t_id t) (t_resolve t))
                        (state_after (Main.onStderr text s)))) =
      [(t_resolve t,
        {| exitCode := 0; output := join_nl (captured s (t_id t)) |})])
  /\
  (let outs :=
     snd (Main.run init
            (Scenario.echo_ok ++
             [ (25%Z, StderrData (lit "bash: warning" ++ [NL]));
               (30%Z, StdoutData (lit "ok" ++ NL :: lit "$ ")) ])) in
   In (CommandOutput {| id_time := 20; id_counter := 1 |} Stderr
         (lit "bash: warning")) outs /\
   delivered outs = [(3%nat, {| exitCode := 0; output := lit "ok" |})]).
Proof.
  pose proof (fun now =>
    triple_outs _ _ _ (quiet_Main_processNextCommand now)) as Hm.
  split; [|split; [|split; [|split]]].
  - intros text s. destruct (Main_onStderr_spec text s) as [H1 H2].
    split; [exact H1|]. split; [exact H2|].
    intros id. apply same_but_stderr_captured, H2.
  - intros text now line s t Ha Hp.
    destruct (Main_onStderr_spec text s) as [_ H2].
    rewrite <- (same_but_stderr_active _ _ H2) in Ha.
    rewrite (Main_prompt now line _ t Hp Ha).
    rewrite delivered_prepend_quiet by apply Hm.
    unfold result_of. cbn [delivered].
    rewrite (same_but_stderr_captured _ _ _ H2). reflexivity.
  - intros text now s t Ha.
    destruct (Main_onStderr_spec text s) as [_ H2].
    rewrite <- (same_but_stderr_active _ _ H2) in Ha.
    cbn [Main.runTimer]. rewrite (Main_early now _ t Ha).
    rewrite delivered_prepend_quiet by apply Hm.
    unfold result_of. cbn [delivered].
    rewrite (same_but_stderr_captured _ _ _ H2). reflexivity.
  - intros text now s t Ha.
    destruct (Main_onStderr_spec text s) as [_ H2].
    rewrite <- (same_but_stderr_active _ _ H2) in Ha.
    cbn [Main.runTimer]. rewrite (Main_hard now _ t Ha).
    rewrite delivered_prepend_quiet by apply Hm.
    unfold result_of. cbn [delivered].
    rewrite (same_but_stderr_captured _ _ _ H2). reflexivity.
  - vm_compute. split; [|reflexivity]. tauto.
Qed.

Lemma C9_witness :
  delivered (snd (Main.stdoutLine 40 (lit "$ ")
                    (state_after
                       (Main.onStderr (lit " ls: cannot access ")
                          Scenario.main_ok_printed)))) =
  [(t_resolve (Scenario.the_active Scenario.main_ok_printed),
    {| exitCode := 0;
       output :=
         join_nl (captured Scenario.main_ok_printed
                    (t_id (Scenario.the_active Scenario.main_ok_printed))) |})].
Proof.
  apply (proj1 (proj2 C9_stderr_is_streamed_but_not_in_result)
           (lit " ls: cannot access ") 40%Z (lit "$ ")
           Scenario.main_ok_printed
           (Scenario.the_active Scenario.main_ok_printed)).
  - vm_compute. reflexivity.
  - vm_compute. reflexivity.
Defined.

(** ** The session process exits *)

(** C1 (the code differs): when the session process exits or errors, both
    main.js and server.js reject the promises of the queued commands and
    emit a status event, and nothing else: the promise of the Active command
    is neither resolved nor rejected, then or later (its fallback timer ends
    in a TypeError); main.js leaves a pending connect wait alone (only its
    15 s timer fails it), server.js calls the resolve function of the wait,
    so that the connect request reports success on a dead session. *)
Theorem C1_exit_rejects_queued_commands_only :
  (forall s,
      snd (Main.onExit s) =
        map (fun q => Reject (q_resolve q) SessionClosed) (commandQueue s)
        ++ [RdeStatus disconnected (lit "RDE session closed")] /\
      microtasks (state_after (Main.onExit s)) = microtasks s /\
      connectionResolve (state_after (Main.onExit s)) = connectionResolve s)
  /\
  (forall message s,
      snd (Main.onError message s) =
        map (fun q => Reject (q_resolve q) (ProcessError message))
            (commandQueue s)
        ++ [RdeStatus failed message])
  /\
  (forall s,
      snd (Server.onExit s) =
        map (fun q => Reject (q_resolve q) SessionClosed) (commandQueue s)
        ++ [RdeStatus disconnected (lit "RDE session closed")] /\
      microtasks (state_after (Server.onExit s)) =
        microtasks s ++ match connectionResolve s with
                        | Some k => [(k, None)]
                        | None => []
                        end)
  /\
  (forall message s,
      snd (Server.onError message s) =
        map (fun q => Reject (q_resolve q) (ProcessError message))
            (commandQueue s)
        ++ [RdeStatus failed message])
  /\
  (* the Active command (promise 3) and the queued one (promise 6) *)
  (let r := Main.run init Scenario.exit_while_active in
   settled 6 (snd r) = true /\ settled 3 (snd r) = false /\
   In Uncaught (snd r) /\
   timers (fst r) = [] /\ active (fst r) = None /\ commandQueue (fst r) = [])
  /\
  (let r := Server.run init Scenario.exit_while_active in
   settled 6 (snd r) = true /\ settled 3 (snd r) = false /\
   In Uncaught (snd r) /\
   timers (fst r) = [] /\ active (fst r) = None /\ commandQueue (fst r) = [])
  /\
  (* the connect wait *)
  snd (Main.run init Scenario.exit_while_connecting) =
    [Spawn 0; RdeStatus disconnected (lit "RDE session closed")]
  /\
  snd (Server.run init Scenario.exit_while_connecting) =
    [Spawn 0; RdeStatus disconnected (lit "RDE session closed");
     RdeStatus connected (lit "Connected to RDE"); ConnectReply true []].
Proof.
  repeat match goal with |- _ /\ _ => split end.
  - intros s. unfold Main.onExit. exec.
    cbn [commandQueue set_currentTarget set_rdeProcess].
    rewrite bind_forEach_emit. exec.
    unfold state_after, prepend, modify. cbn. auto.
  - intros message s. unfold Main.onError. exec.
    cbn [commandQueue set_currentTarget set_rdeProcess].
    rewrite bind_forEach_emit. exec.
    unfold state_after, prepend, modify. cbn. reflexivity.
  - intros s. unfold Server.onExit, Server.resolvePendingConnection. exec.
    cbn [connectionResolve set_currentTarget set_rdeProcess].
    destruct (connectionResolve s) as [k|]; exec;
      cbn [commandQueue set_currentTarget set_rdeProcess set_microtasks
           set_connectionResolve];
      rewrite bind_forEach_emit; exec;
      unfold state_after, prepend, modify; cbn;
      rewrite ?app_nil_r; auto.
  - intros message s.
    unfold Server.onError, Server.resolvePendingConnection. exec.
    cbn [connectionResolve set_currentTarget set_rdeProcess].
    destruct (connectionResolve s) as [k|]; exec;
      cbn [commandQueue set_currentTarget set_rdeProcess set_microtasks
           set_connectionResolve];
      rewrite bind_forEach_emit; exec;
      unfold state_after, prepend, modify; cbn; reflexivity.
  - vm_compute. repeat split; tauto.
  - vm_compute. repeat split; tauto.
  - vm_compute. reflexivity.
  - vm_compute. reflexivity.
Qed.

(** ** Connecting twice *)

(** C6 (the code differs): neither back end spawns a second process while
    [rdeProcess] is set, and server.js answers a connect request on a
    connected session at once, leaving the state as it is; main.js has no
    such test: on a connected session it sets up a new connect wait with a
    15 s timer and answers nothing, and when no further greeting arrives
    the timer closes the session that was working and the request fails. *)
Theorem C6_connect_on_connected_session :
  (forall now s,
      snd (Main.connect now s) =
        match rdeProcess s with
        | Some _ => []
        | None => [Spawn (nextId s)]
        end)
  /\
  (forall now s,
      snd (Server.connect now s) =
        match currentTarget s, rdeProcess s with
        | Some _, Some _ => [ConnectReply true (lit "Already connected")]
        | _, Some _ => []
        | _, None => [Spawn (nextId s)]
        end)
  /\
  (forall now s,
      match currentTarget s, rdeProcess s with
      | Some _, Some _ =>
          Server.connect now s =
            (Ok tt, s, [ConnectReply true (lit "Already connected")])
      | _, _ => True
      end)
  /\
  (* main.js, connected, then connect again *)
  (let s := fst (Main.run init Scenario.connecting) in
   currentTarget s = Some [] /\
   rdeProcess s = Some {| p_pid := 0; p_currentCommand := None |} /\
   connectionResolve s = None /\
   snd (Main.step s (20%Z, Connect)) = [] /\
   connectionResolve (fst (Main.step s (20%Z, Connect))) = Some 3%nat /\
   timers (fst (Main.step s (20%Z, Connect))) =
     timers s ++ [{| tm_id := 4; tm_due := 15020; tm_cb := ConnectTimeout 3 |}])
  /\
  (let r := Main.run init Scenario.connect_again in
   snd r =
     [ Spawn 0; RdeStatus connected (lit "Connected to RDE");
       ConnectReply true [];
       StdinEnd 0; Kill 0;
       RdeStatus failed (error_message ConnectionTimeout);
       ConnectReply false (error_message ConnectionTimeout) ] /\
   rdeProcess (fst r) = None /\ currentTarget (fst r) = None)
  /\
  (* server.js on the same requests *)
  (let s := fst (Server.run init Scenario.connecting) in
   Server.step s (20%Z, Connect) =
     (s, [ConnectReply true (lit "Already connected")])).
Proof.
  repeat match goal with |- _ /\ _ => split end.
  - intros now s. unfold Main.connect, Main.createRDESession. exec.
    destruct (rdeProcess s); exec; reflexivity.
  - intros now s. unfold Server.connect, Server.createRDESession. exec.
    destruct (currentTarget s), (rdeProcess s) eqn:Epr; exec; rewrite ?Epr;
      exec; reflexivity.
  - intros now s. unfold Server.connect. exec.
    destruct (currentTarget s), (rdeProcess s); try exact Logic.I.
    reflexivity.
  - vm_compute. repeat split; reflexivity.
  - vm_compute. repeat split; reflexivity.
  - vm_compute. reflexivity.
Qed.

(** ** The inactivity check of server.js *)

Section Poll.

Local Abbreviation P := (triple poll_never_armed (fun _ => True)).

Lemma poll_remove_timer (i : nat) (l : list pending) :
  Forall (fun tm => not_activity (tm_cb tm)) l ->
  Forall (fun tm => not_activity (tm_cb tm)) (remove_timer i l).
Proof.
  intros H. unfold remove_timer. rewrite Forall_forall in *.
  intros x Hx. apply filter_In in Hx. apply H. tauto.
Qed.

Lemma poll_updateCurrent (f : tracker -> tracker) :
  (forall t, t_ref (f t) = t_ref t) ->
  P (Server.updateCurrent f) (fun _ => True).
Proof.
  intros Hf s [H1 H2]. unfold Server.updateCurrent. exec.
  destruct (rdeProcess s) as [pr|] eqn:Epr; exec; [|cbn; repeat split; auto].
  destruct (p_currentCommand pr) as [t|] eqn:Ec; exec;
    [|cbn; repeat split; auto].
  rewrite Epr. exec. unfold modify. cbn.
  split; [|auto]. split; [|exact H2].
  intros t' Ht'. unfold active in *. cbn in Ht'. inversion Ht'; subst.
  rewrite Hf. apply H1. rewrite Epr. exact Ec.
Qed.

Lemma poll_fresh : P fresh (fun _ => True).
Proof.
  intros s [H1 H2]. unfold fresh. exec. unfold modify. cbn.
  split; [|auto]. split; [|exact H2].
  intros t Ht. apply Nat.lt_lt_succ_r, H1. exact Ht.
Qed.

Lemma poll_setTimeout (now : Z) (cb : timer) (delay : Z) :
  not_activity cb -> P (setTimeout now cb delay) (fun _ => True).
Proof.
  intros Hc s [H1 H2]. unfold setTimeout, fresh. exec. unfold modify. cbn.
  split; [|auto]. split.
  - intros t Ht. apply Nat.lt_lt_succ_r, H1. exact Ht.
  - apply Forall_app. split; [exact H2|]. repeat constructor. exact Hc.
Qed.

Lemma poll_pushStdout (id : cmdid) (l : jsstring) :
  P (pushStdout id l) (fun _ => True).
Proof.
  intros s Hs. unfold pushStdout, modify.
  destruct (map_get id (commandOutputs s)); cbn; auto.
Qed.

(** How an assignment to the state keeps [poll_never_armed]. *)
Ltac poll_inv :=
  match goal with
  | Hs : poll_never_armed ?s |- poll_never_armed _ =>
      first
        [ exact Hs
        | destruct Hs as [?H1 ?H2]; split;
          [ unfold active in *; cbn;
            first [ assumption
                  | intros ? ?; discriminate
                  | intros ? ?; apply Nat.lt_lt_succ_r; auto ]
          | cbn;
            first [ assumption
                  | apply poll_remove_timer; assumption
                  | apply Forall_app; split;
                    [assumption|repeat constructor] ] ] ]
  end.

Ltac poll_run :=
  repeat first
    [ match goal with
      | |- triple _ _ (Server.updateCurrent _) _ =>
          apply poll_updateCurrent; intros ?; reflexivity
      | |- triple _ _ fresh _ => apply poll_fresh
      | |- triple _ _ (setTimeout _ _ _) _ =>
          apply poll_setTimeout; exact Logic.I
      | |- triple _ _ (pushStdout _ _) _ => apply poll_pushStdout
      | H : triple _ _ ?m _ |- triple _ _ ?m _ => exact H
      | H : false = true |- _ => discriminate H
      end
    | triple_step
    | apply triple_modify; intros ? ?; poll_inv
    | apply triple_emit; exact Logic.I
    | progress unfold currentCommand, setCurrentCommand,
        clearTimeout, deleteOutput, fullOutput, pushStderr,
        settleConnect, welcome, closeRDESession, generateCommandId ].

Lemma poll_completeCommandK (next : M unit) (ref : nat) (id : cmdid)
    (p : nat) :
  P next (fun _ => True) ->
  P (Server.completeCommandK next ref id p) (fun _ => True).
Proof. intros Hn. unfold Server.completeCommandK. poll_run. Qed.

(** [processNextCommand] calls [checkOutputActivity] before it stores the
    new tracker in the slot: the test of the check fails, nothing is set
    up. *)
Lemma poll_processNextBody (self : M unit) (now : Z) :
  P (Server.processNextBody self now) (fun _ => True).
Proof.
  intros s Hs. pose proof Hs as [H1 H2].
  unfold Server.processNextBody. exec.
  destruct (commandQueue s) as [|q rest]; [cbn; auto|].
  destruct (isExecutingCommand s); [cbn; auto|].
  exec. unfold Server.checkOutputActivityK. exec.
  cbn [rdeProcess nextId set_nextId set_commandOutputs
       set_isExecutingCommand set_commandQueue].
  destruct (rdeProcess s) as [pr|] eqn:Epr; exec.
  - assert (Hg : match p_currentCommand pr with
                 | Some t => (t_ref t =? nextId s)%nat = false
                 | None => True
                 end).
    { destruct (p_currentCommand pr) as [t|] eqn:Ec; [|exact Logic.I].
      apply Nat.eqb_neq. specialize (H1 t). unfold active in H1.
      rewrite Epr in H1. specialize (H1 Ec). lia. }
    destruct (p_currentCommand pr) as [t|] eqn:Ec;
      [rewrite Hg|]; exec;
      cbn [rdeProcess set_nextId set_commandOutputs set_isExecutingCommand
           set_commandQueue set_timers];
      rewrite Epr; exec;
      cbn [rdeProcess set_rdeProcess]; exec;
      unfold modify, prepend; cbn;
      (split; [|auto]); (split;
        [ unfold active; cbn; intros t' Ht'; inversion Ht'; subst; cbn; lia
        | apply Forall_app; split; [exact H2|repeat constructor] ]).
  - cbn. split; [|auto]. split; [|exact H2].
    unfold active. cbn. rewrite Epr. intros t Ht. discriminate.
Qed.

Lemma poll_processNextCommand (now : Z) :
  P (Server.processNextCommand now) (fun _ => True).
Proof.
  intros s Hs. unfold Server.processNextCommand.
  cbn [Server.processNextCommandN]. apply poll_processNextBody. exact Hs.
Qed.

Lemma poll_stdoutLine (now : Z) (line : jsstring) :
  P (Server.stdoutLine now line) (fun _ => True).
Proof.
  pose proof (poll_processNextCommand now) as Hp.
  unfold Server.stdoutLine. poll_run.
Qed.

Lemma find_timer_In (i : nat) (l : list pending) (t : pending) :
  find_timer i l = Some t -> In t l.
Proof. unfold find_timer. intros H. apply find_some in H. tauto. Qed.

Lemma poll_handle (now : Z) (ev : event) :
  P (Server.handle now ev) (fun _ => True).
Proof.
  pose proof (poll_processNextCommand now) as Hp.
  destruct ev; unfold Server.handle.
  - unfold Server.connect, Server.createRDESession. poll_run.
  - unfold Server.disconnect. poll_run.
  - unfold Server.execute, Server.executeInRDESession. poll_run.
  - unfold Server.onStdout. poll_run. apply poll_stdoutLine.
  - unfold Server.onStderr. poll_run.
  - unfold Server.onExit, Server.resolvePendingConnection. poll_run.
  - unfold Server.onError, Server.resolvePendingConnection. poll_run.
  - unfold Server.onTimer. eapply triple_bind; [apply triple_get|].
    intros s Hs. destruct (find_timer i (timers s)) as [t|] eqn:Ef;
      [|apply triple_ret_any].
    assert (Hq : not_activity (tm_cb t)).
    { destruct Hs as [_ H2]. rewrite Forall_forall in H2.
      apply H2, (find_timer_In i), Ef. }
    unfold Server.runTimer, Server.hardTimeout, Server.earlyComplete,
      Server.connectTimeout, Server.completeCommand.
    destruct (tm_cb t); try contradiction; poll_run;
      apply poll_completeCommandK; exact Hp.
Qed.

Lemma poll_drain : P Server.drain (fun _ => True).
Proof. unfold Server.drain, Server.connectContinue. poll_run. Qed.

Lemma poll_step (s : state) (ev : Z * event) :
  poll_never_armed s -> poll_never_armed (fst (Server.step s ev)).
Proof.
  intros Hs. unfold Server.step.
  pose proof (poll_handle (fst ev) (snd ev) s Hs) as H1.
  destruct (Server.handle (fst ev) (snd ev) s) as [[r s1] o1].
  destruct H1 as [H1 _].
  pose proof (poll_drain s1 H1) as H3.
  destruct (Server.drain s1) as [[r2 s2] o2]. destruct H3 as [H3 _].
  exact H3.
Qed.

Lemma poll_run_all (evs : list (Z * event)) (s : state) :
  poll_never_armed s -> poll_never_armed (fst (Server.run s evs)).
Proof.
  revert s. induction evs as [|ev r IH]; intros s Hs; simpl; [exact Hs|].
  pose proof (poll_step s ev Hs) as H1.
  destruct (Server.step s ev) as [s1 o1].
  specialize (IH s1 H1). destruct (Server.run s1 r) as [s2 o2]. exact IH.
Qed.

End Poll.

(** A timer that is not due does not run. *)
Lemma Server_timer_not_due (now : Z) (i : nat) (s : state) :
  Forall (fun tm => (now < tm_due tm)%Z) (timers s) ->
  microtasks s = [] ->
  Server.step s (now, Timer i) = (s, []).
Proof.
  intros Hd Hm. unfold Server.step, Server.handle, Server.onTimer.
  cbn [fst snd]. exec.
  assert (E : match find_timer i (timers s) with
              | Some t =>
                  when (tm_due t <=? now)%Z
                    (modify (fun s => set_timers (remove_timer i (timers s)) s) ;;
                     Server.runTimer now (tm_cb t))
              | None => ret tt
              end s = (Ok tt, s, [])).
  { destruct (find_timer i (timers s)) as [t|] eqn:Ef; [|reflexivity].
    rewrite Forall_forall in Hd. specialize (Hd t (find_timer_In i _ _ Ef)).
    apply Z.leb_gt in Hd. rewrite Hd. reflexivity. }
  rewrite E. unfold Server.drain. exec. rewrite Hm. cbn.
  destruct s; cbn in *; subst; reflexivity.
Qed.

(** What [processNextCommand] of server.js sets up for the command it
    starts: the fallback timer, and no inactivity check. *)
Lemma Server_start_arms_fallback_only (now : Z) (s : state) (q : qentry)
    (rest : list qentry) (pr : process) :
  commandQueue s = q :: rest -> isExecutingCommand s = false ->
  rdeProcess s = Some pr -> poll_never_armed s ->
  timers (state_after (Server.processNextCommand now s)) =
    timers s ++
    [{| tm_id := S (nextId s); tm_due := now + 5000;
        tm_cb := HardTimeout (nextId s) (q_commandId q) (q_resolve q) |}].
Proof.
  intros Eq Ee Epr [H1 H2].
  unfold Server.processNextCommand. cbn [Server.processNextCommandN].
  unfold Server.processNextBody. exec. rewrite Eq, Ee. exec.
  unfold Server.checkOutputActivityK. exec.
  cbn [rdeProcess nextId set_nextId set_commandOutputs
       set_isExecutingCommand set_commandQueue].
  rewrite Epr. exec.
  assert (Hg : match p_currentCommand pr with
               | Some t => (t_ref t =? nextId s)%nat = false
               | None => True
               end).
  { destruct (p_currentCommand pr) as [t|] eqn:Ec; [|exact Logic.I].
    apply Nat.eqb_neq. specialize (H1 t). unfold active in H1.
    rewrite Epr in H1. specialize (H1 Ec). lia. }
  destruct (p_currentCommand pr) as [t|] eqn:Ec;
    [rewrite Hg|]; exec;
    cbn [rdeProcess set_nextId set_commandOutputs set_isExecutingCommand
         set_commandQueue set_timers];
    rewrite Epr; exec;
    cbn [rdeProcess set_rdeProcess]; exec;
    unfold state_after, modify, prepend; cbn; reflexivity.
Qed.

(** C5 (the code differs): in server.js no inactivity check is ever pending:
    [processNextCommand] runs the check once, before the new tracker is in
    the slot, so the test of the check fails and it sets up nothing, and
    only the 5 s fallback timer is armed.  The check itself, were it run
    for the Active command, would complete it exactly when a second has
    passed since the last captured line and something is captured, and
    would otherwise set itself up 200 ms later.  After [echo ok] has
    printed [ok] at time 100 with no prompt, nothing runs at time 1300; the
    command completes at the fallback timer. *)
Theorem C5_inactivity_check_never_armed :
  (forall evs,
      Forall (fun tm => not_activity (tm_cb tm))
             (timers (fst (Server.run init evs))))
  /\
  (forall now s q rest pr,
      commandQueue s = q :: rest -> isExecutingCommand s = false ->
      rdeProcess s = Some pr -> poll_never_armed s ->
      timers (state_after (Server.processNextCommand now s)) =
        timers s ++
        [{| tm_id := S (nextId s); tm_due := now + 5000;
            tm_cb := HardTimeout (nextId s) (q_commandId q)
                                 (q_resolve q) |}])
  /\
  (forall now s t,
      active s = Some t ->
      Server.checkOutputActivity now (t_ref t) (t_id t) (t_resolve t) s =
      if ((1000 <=? now - t_lastOutputTime t)%Z
          && (0 <? List.length (captured s (t_id t)))%nat)%bool
      then Server.completeCommand now (t_ref t) (t_id t) (t_resolve t) s
      else
        (Ok tt,
         set_rdeProcess
           (match rdeProcess s with
            | Some p =>
                Some {| p_pid := p_pid p;
                        p_currentCommand :=
                          Some (Server.set_outputTimeout
                                  (Some (nextId s)) t) |}
            | None => None
            end)
           (set_timers
              (timers s ++
               [{| tm_id := nextId s; tm_due := now + 200;
                   tm_cb := OutputActivity (t_ref t) (t_id t)
                                           (t_resolve t) |}])
              (set_nextId (S (nextId s)) s)),
         []))
  /\
  (captured Scenario.server_quiet {| id_time := 20; id_counter := 1 |} =
     [lit "ok"] /\
   option_map t_lastOutputTime (active Scenario.server_quiet) = Some 100%Z /\
   timers Scenario.server_quiet =
     [ {| tm_id := 2; tm_due := 15000; tm_cb := ConnectTimeout 1 |};
       {| tm_id := 5; tm_due := 5020;
          tm_cb := HardTimeout 4 {| id_time := 20; id_counter := 1 |} 3 |} ]
   /\
   (forall i,
       Server.step Scenario.server_quiet (1300%Z, Timer i) =
       (Scenario.server_quiet, [])) /\
   delivered (snd (Server.step Scenario.server_quiet (5020%Z, Timer 5))) =
     [(3%nat, {| exitCode := 0; output := lit "ok" |})]).
Proof.
  split; [|split; [|split]].
  - intros evs.
    assert (Hi : poll_never_armed init).
    { split; [intros t Ht; discriminate|constructor]. }
    exact (proj2 (poll_run_all evs init Hi)).
  - exact Server_start_arms_fallback_only.
  - exact Server_activity.
  - split; [vm_compute; reflexivity|].
    split; [vm_compute; reflexivity|].
    split; [vm_compute; reflexivity|].
    split; [|vm_compute; reflexivity].
    intros i. apply Server_timer_not_due.
    + vm_compute. repeat constructor.
    + vm_compute. reflexivity.
Qed.

Lemma C5_witness :
  timers (state_after
            (Server.processNextCommand 20
               (set_commandQueue
                  [{| q_command := lit "echo ok";
                      q_commandId := {| id_time := 20; id_counter := 1 |};
                      q_resolve := 3 |}]
                  (fst (Server.run init Scenario.connecting))))) =
  timers (set_commandQueue
            [{| q_command := lit "echo ok";
                q_commandId := {| id_time := 20; id_counter := 1 |};
                q_resolve := 3 |}]
            (fst (Server.run init Scenario.connecting))) ++
  [{| tm_id := S (nextId (set_commandQueue
            [{| q_command := lit "echo ok";
                q_commandId := {| id_time := 20; id_counter := 1 |};
                q_resolve := 3 |}]
            (fst (Server.run init Scenario.connecting))));
      tm_due := 20 + 5000;
      tm_cb := HardTimeout
                 (nextId (set_commandQueue
                    [{| q_command := lit "echo ok";
                        q_commandId := {| id_time := 20; id_counter := 1 |};
                        q_resolve := 3 |}]
                    (fst (Server.run init Scenario.connecting))))
                 {| id_time := 20; id_counter := 1 |} 3 |}].
Proof.
  apply (proj1 (proj2 C5_inactivity_check_never_armed) 20%Z _
           {| q_command := lit "echo ok";
              q_commandId := {| id_time := 20; id_counter := 1 |};
              q_resolve := 3 |} []
           {| p_pid := 0; p_currentCommand := None |}).
  - vm_compute. reflexivity.
  - vm_compute. reflexivity.
  - vm_compute. reflexivity.
  - split.
    + intros t Ht. vm_compute in Ht. discriminate.
    + vm_compute. repeat constructor.
Defined.

(** ** The recursion of [processNextCommand] in server.js *)

(** With nothing captured under [id] the inactivity check does not reach
    [completeCommand], hence not the nested [processNextCommand]. *)
Lemma Server_check_without_next (next next' : M unit) (now : Z) (ref : nat)
    (id : cmdid) (p : nat) (s : state) :
  captured s id = [] ->
  Server.checkOutputActivityK next now ref id p s =
  Server.checkOutputActivityK next' now ref id p s.
Proof.
  intros Hc. unfold Server.checkOutputActivityK. exec.
  destruct (rdeProcess s) as [pr|]; [|reflexivity]. exec.
  destruct (p_currentCommand pr) as [t|]; [|reflexivity].
  destruct (t_ref t =? ref)%nat; [|reflexivity]. exec.
  replace (match map_get id (commandOutputs s) with
           | Some o => (0 <? List.length (o_stdout o))%nat
           | None => false
           end) with false.
  2:{ unfold captured in Hc.
      destruct (map_get id (commandOutputs s)); [rewrite Hc|]; reflexivity. }
  rewrite andb_false_r. reflexivity.
Qed.

(** The bound on the nesting is never reached: any bound above zero gives
    the same [processNextCommand]. *)
Lemma Server_processNextCommandN_fuel (fuel : nat) (now : Z) (s : state) :
  Server.processNextCommandN (S fuel) now s = Server.processNextCommand now s.
Proof.
  unfold Server.processNextCommand. cbn [Server.processNextCommandN].
  unfold Server.processNextBody. exec.
  destruct (commandQueue s) as [|q rest]; [reflexivity|].
  destruct (isExecutingCommand s); [reflexivity|].
  exec. unfold bind at 1. symmetry. unfold bind at 1.
  rewrite (Server_check_without_next
             (Server.processNextCommandN (List.length (q :: rest)) now)
             (Server.processNextCommandN fuel now)).
  - reflexivity.
  - unfold captured. cbn. rewrite map_get_set_same. reflexivity.
Qed.

Lemma C10_witness :
  In (Resolve 3 {| exitCode := 0; output := lit "ok" |})
     (snd (Main.run init
             (Scenario.echo_ok ++
              [(30%Z, StdoutData (lit "   ok  " ++ NL :: NL :: lit "$ "))])))
  /\
  (output {| exitCode := 0; output := lit "ok" |} = [] \/
   Forall clean_line
     (split_nl (output {| exitCode := 0; output := lit "ok" |}))).
Proof.
  assert (H : In (Resolve 3 {| exitCode := 0; output := lit "ok" |})
                (snd (Main.run init
                        (Scenario.echo_ok ++
                         [(30%Z, StdoutData
                                   (lit "   ok  " ++ NL :: NL :: lit "$ "))]))))
    by (vm_compute; tauto).
  split; [exact H|].
  exact (proj2 (proj1 C10_captured_lines_are_trimmed _) 3%nat _ H).
Defined.
